(** * gluetun: routing address utilities, OpenVPN settings, Cyberghost updater

    A shallow embedding of
    - the routing package's address predicates and interface address
      resolver ([IPIsPrivate], [ipMatchesFamily], [assignedIP]),
    - the OpenVPN settings ([validate], [copy], [setDefaults]),
    - the Cyberghost updater ([FetchServers]),
    together with the properties the specification states about them. *)

From Stdlib Require Import ZArith Lia Bool Ascii String.
From stdpp Require Import base option list strings pretty gmap fin_maps sorting.

Local Open Scope Z_scope.

(* ===================================================================== *)
(** ** Go errors *)
(* ===================================================================== *)

Module errors.

(** An error value is either created by [errors.New] (a package level
    sentinel or an error handed over by the operating system), or built
    by [fmt.Errorf] with exactly one [%w] verb: the formatted text and
    the wrapped error. *)
Inductive error : Type :=
  | New (text : string)
  | Errorf (text : string) (wrapped : error).

(** The [Error()] method. *)
Definition Error (e : error) : string :=
    match e with
    | New t => t
    | Errorf t _ => t
    end.

Definition Unwrap (e : error) : option error :=
    match e with
    | New _ => None
    | Errorf _ w => Some w
    end.

Fixpoint error_eqb (a b : error) : bool :=
  match a, b with
  | New s, New t => bool_decide (s = t)
  | Errorf s x, Errorf t y => bool_decide (s = t) && error_eqb x y
  | _, _ => false
  end.

(** [errors.Is]: walks the chain of wrapped errors. *)
Fixpoint Is (e target : error) : bool :=
    error_eqb e target ||
    match e with
    | New _ => false
    | Errorf _ w => Is w target
    end.

End errors.

(* ===================================================================== *)
(** ** net/netip addresses

    The address type of the standard library and the methods the routing
    package calls, as of Go 1.20: the classification methods look at an
    address in the form it is given in, so a V4-mapped-V6 address is
    classified as the 16-byte address it is. *)
(* ===================================================================== *)

Module netip.

(** [uint128]: two 64-bit halves. *)
Record uint128 : Type := mkUint128 { hi : Z; lo : Z }.

(** The [z] field of [Addr]: the zero address, an IPv4 address, an IPv6
    address without zone, or an IPv6 address with a zone. *)
Inductive zptr : Type :=
  | z0
  | z4
  | z6noz
  | z6zone (name : string).

Record Addr : Type := mkAddr { addr : uint128; z : zptr }.

(** The zero value of [Addr]. *)
Definition zero : Addr := mkAddr (mkUint128 0 0) z0.

Definition uint8 (x : Z) : Z := Z.land x 255.
Definition uint16 (x : Z) : Z := Z.land x 65535.

(** Representation invariant kept by the constructors of the package. *)
Definition valid (ip : Addr) : Prop :=
    0 <= hi (addr ip) < 2 ^ 64 /\ 0 <= lo (addr ip) < 2 ^ 64 /\
    match z ip with
    | z0 => hi (addr ip) = 0 /\ lo (addr ip) = 0
    | z4 => hi (addr ip) = 0 /\ Z.shiftr (lo (addr ip)) 32 = 65535
    | _ => True
    end.

Definition Is4 (ip : Addr) : bool :=
    match z ip with z4 => true | _ => false end.

Definition Is6 (ip : Addr) : bool :=
    match z ip with z0 | z4 => false | _ => true end.

Definition Is4In6 (ip : Addr) : bool :=
    Is6 ip && (hi (addr ip) =? 0) && (Z.shiftr (lo (addr ip)) 32 =? 65535).

Definition Unmap (ip : Addr) : Addr :=
    if Is4In6 ip then mkAddr (addr ip) z4 else ip.

(** [v4 i]: the i-th byte of an IPv4 address. *)
Definition v4 (ip : Addr) (i : Z) : Z :=
    uint8 (Z.shiftr (lo (addr ip)) ((3 - i) * 8)).

Definition halves (u : uint128) (k : Z) : Z :=
    if k =? 0 then hi u else lo u.

(** [v6 i]: the i-th byte of an IPv6 address. *)
Definition v6 (ip : Addr) (i : Z) : Z :=
    uint8 (Z.shiftr (halves (addr ip) ((i / 8) mod 2)) ((7 - i mod 8) * 8)).

(** [v6u16 i]: the i-th 16-bit group of an IPv6 address. *)
Definition v6u16 (ip : Addr) (i : Z) : Z :=
    uint16 (Z.shiftr (halves (addr ip) ((i / 4) mod 2)) ((3 - i mod 4) * 16)).

Definition IsPrivate (ip : Addr) : bool :=
    if Is4 ip then
      (v4 ip 0 =? 10) ||
      ((v4 ip 0 =? 172) && (Z.land (v4 ip 1) 240 =? 16)) ||
      ((v4 ip 0 =? 192) && (v4 ip 1 =? 168))
    else Is6 ip && (Z.land (v6 ip 0) 254 =? 252).

Definition IsLoopback (ip : Addr) : bool :=
    if Is4 ip then v4 ip 0 =? 127
    else if Is6 ip then (hi (addr ip) =? 0) && (lo (addr ip) =? 1)
    else false.

Definition IsLinkLocalUnicast (ip : Addr) : bool :=
    if Is4 ip then (v4 ip 0 =? 169) && (v4 ip 1 =? 254)
    else if Is6 ip then Z.land (v6u16 ip 0) 65472 =? 65152
    else false.

Definition IsLinkLocalMulticast (ip : Addr) : bool :=
    if Is4 ip then (v4 ip 0 =? 224) && (v4 ip 1 =? 0) && (v4 ip 2 =? 0)
    else if Is6 ip then Z.land (v6u16 ip 0) 65295 =? 65282
    else false.

(** [AddrFrom4]: the address of four bytes. *)
Definition AddrFrom4 (a b c d : Z) : Addr :=
  mkAddr (mkUint128 0
            (Z.lor (Z.lor (Z.lor (Z.lor 281470681743360 (Z.shiftl a 24))
                                 (Z.shiftl b 16)) (Z.shiftl c 8)) d)) z4.

Definition beUint64 (bs : list Z) : Z :=
  fold_left (fun acc b => Z.lor (Z.shiftl acc 8) b) bs 0.

(** [AddrFrom16]: the address of sixteen bytes. *)
Definition AddrFrom16 (bs : list Z) : Addr :=
  mkAddr (mkUint128 (beUint64 (take 8 bs)) (beUint64 (drop 8 bs))) z6noz.

(** [AddrFromSlice]: the address of a 4-byte or 16-byte slice, and
    whether the slice had one of these lengths. *)
Definition AddrFromSlice (slice : list Z) : Addr * bool :=
  match slice with
  | [a; b; c; d] => (AddrFrom4 a b c d, true)
  | _ => if (length slice =? 16)%nat then (AddrFrom16 slice, true)
         else (zero, false)
  end.

(** The V4-mapped-V6 form ::ffff:a.b.c.d of the address a.b.c.d: the
    same 128 bits, tagged as a 16-byte address. *)
Definition mapped (a b c d : Z) : Addr :=
  mkAddr (addr (AddrFrom4 a b c d)) z6noz.

End netip.

(* ===================================================================== *)
(** ** net: interfaces of the host *)
(* ===================================================================== *)

Module net.

(** [net.IP] is a byte slice. *)
Definition IP : Type := list Z.

(** The dynamic types an element of [Interface.Addrs] can have: the
    resolver looks at [*net.IPAddr] and [*net.IPNet] and skips the rest. *)
Inductive Addr : Type :=
  | IPAddr (ip : IP) (zone : string)
  | IPNet (ip : IP) (mask : list Z)
  | OtherAddr (network text : string).

Inductive result (A : Type) : Type :=
  | Ok (a : A)
  | Err (e : errors.error).
Arguments Ok {A} a.
Arguments Err {A} e.

(** An interface, with what its [Addrs] method returns. *)
Record Interface : Type := mkInterface {
    Name : string;
    Addrs : result (list Addr)
  }.

(** The host: what [net.InterfaceByName] answers for each name. *)
Record Host : Type := mkHost {
    InterfaceByName : string -> result Interface
  }.

End net.

(* ===================================================================== *)
(** ** Package routing *)
(* ===================================================================== *)

Module routing.
Import errors.

Definition IPIsPrivate (ip : netip.Addr) : bool :=
    netip.IsPrivate ip || netip.IsLoopback ip ||
    netip.IsLinkLocalUnicast ip || netip.IsLinkLocalMulticast ip.

Definition errInterfaceIPNotFound : error :=
    New "IP address not found for interface".

(** The three errors [assignedIP] builds, under the names the
    specification gives to the failure kinds. *)
Definition InterfaceNotFound (interfaceName : string) (err : error) : error :=
  Errorf ("network interface " +:+ interfaceName +:+ " not found: " +:+ Error err) err.

Definition AddressListFailed (interfaceName : string) (err : error) : error :=
  Errorf ("listing interface " +:+ interfaceName +:+ " addresses: " +:+ Error err) err.

Definition NoMatchingAddress (interfaceName : string) (n : nat) : error :=
  Errorf (Error errInterfaceIPNotFound +:+ ": interface " +:+ interfaceName +:+
          " in " +:+ pretty n +:+ " addresses") errInterfaceIPNotFound.

Section Resolver.
(** The address family constants of package netlink and the conversion
    helper [netIPToNetipAddress] are declared in other files of the
    repository: they are parameters of the resolver. *)
Variables FAMILY_V4 FAMILY_V6 : Z.
Variable netIPToNetipAddress : net.IP -> netip.Addr.

Definition ipMatchesFamily (ip : netip.Addr) (family : Z) : bool :=
      ((family =? FAMILY_V6) && netip.Is6 ip) ||
      ((family =? FAMILY_V4) && (netip.Is4 ip || netip.Is4In6 ip)).

(** The body of the [for] loop of [assignedIP], over the addresses
    still to visit; [ip] is the named result, which the loop
    overwrites.  [inl] is a [return] from inside the loop, [inr] the
    value of [ip] when the loop ends. *)
Fixpoint assignedIP_loop (family : Z) (addresses : list net.Addr)
        (ip : netip.Addr) : netip.Addr + netip.Addr :=
      match addresses with
      | [] => inr ip
      | address :: rest =>
          match address with
          | net.IPAddr v _ | net.IPNet v _ =>
              let ip := netIPToNetipAddress v in
              if negb (ipMatchesFamily ip family)
              then assignedIP_loop family rest ip
              else inl (netip.Unmap ip)
          | net.OtherAddr _ _ => assignedIP_loop family rest ip
          end
      end.

Definition assignedIP (host : net.Host) (interfaceName : string)
        (family : Z) : netip.Addr * option error :=
      let ip := netip.zero in
      match net.InterfaceByName host interfaceName with
      | net.Err err =>
          (ip, Some (Errorf ("network interface " +:+ interfaceName +:+
                             " not found: " +:+ Error err) err))
      | net.Ok iface =>
          match net.Addrs iface with
          | net.Err err =>
              (ip, Some (Errorf ("listing interface " +:+ interfaceName +:+
                                 " addresses: " +:+ Error err) err))
          | net.Ok addresses =>
              match assignedIP_loop family addresses ip with
              | inl found => (found, None)
              | inr ip =>
                  (ip, Some (Errorf (Error errInterfaceIPNotFound +:+
                                     ": interface " +:+ interfaceName +:+
                                     " in " +:+ pretty (length addresses) +:+
                                     " addresses") errInterfaceIPNotFound))
              end
          end
      end.

(** The address an enumerated entry carries, if it has one. *)
Definition entryIP (a : net.Addr) : option netip.Addr :=
      match a with
      | net.IPAddr v _ | net.IPNet v _ => Some (netIPToNetipAddress v)
      | net.OtherAddr _ _ => None
      end.

(** An enumerated entry matches a family when it carries an address
    that [ipMatchesFamily] accepts. *)
Definition entryMatches (family : Z) (a : net.Addr) : bool :=
      match entryIP a with
      | Some ip => ipMatchesFamily ip family
      | None => false
      end.

End Resolver.

End routing.

(* ===================================================================== *)
(** ** Memory: pointers and slices of the settings *)
(* ===================================================================== *)

Module mem.

(** Addresses of heap cells. *)
Definition loc : Type := positive.

(** What a cell holds: the pointee of a [*string], [*uint16] or [*int],
    or the backing array of a [[]string]. *)
Inductive val : Type :=
| VString (s : string)
| VUint16 (n : Z)
| VInt (n : Z)
| VArray (xs : list string).

Abbreviation heap := (gmap loc val).

(** A pointer: [None] is [nil]. *)
Definition ptr : Type := option loc.

(** A slice header: the backing array ([nil] for the nil slice), the
    position of its first element in that array, its length and capacity. *)
Record slice : Type := mkSlice {
  array : ptr;
  offset : nat;
  len : nat;
  cap : nat
}.

Definition nilSlice : slice := mkSlice None 0 0 0.

(** [*p]; [None] is the nil pointer dereference panic. *)
Definition load (h : heap) (p : ptr) : option val :=
  match p with
  | Some l => h !! l
  | None => None
  end.

Definition loadString (h : heap) (p : ptr) : option string :=
  match load h p with
  | Some (VString s) => Some s
  | _ => None
  end.

Definition loadUint16 (h : heap) (p : ptr) : option Z :=
  match load h p with
  | Some (VUint16 n) => Some n
  | _ => None
  end.

Definition loadInt (h : heap) (p : ptr) : option Z :=
  match load h p with
  | Some (VInt n) => Some n
  | _ => None
  end.

(** The elements of a slice. *)
Definition elems (h : heap) (s : slice) : list string :=
  match array s with
  | Some l =>
      match h !! l with
      | Some (VArray xs) => take (len s) (drop (offset s) xs)
      | _ => []
      end
  | None => []
  end.

(** A pointer is allocated when it is nil or its cell exists. *)
Definition allocated (h : heap) (p : ptr) : Prop :=
  match p with
  | Some l => is_Some (h !! l)
  | None => True
  end.

(** A pointer belongs to a set of cells that did not exist in [h]. *)
Definition freshIn (h : heap) (p : ptr) : Prop :=
  match p with
  | Some l => h !! l = None
  | None => True
  end.

End mem.

(* ===================================================================== *)
(** ** Package settings: the OpenVPN settings *)
(* ===================================================================== *)

Module settings.
Import errors mem.

(** OpenVPN contains settings to configure the OpenVPN client. *)
Record OpenVPN : Type := mkOpenVPN {
  Version : string;
  User : ptr;
  Password : ptr;
  ConfFile : ptr;
  Ciphers : slice;
  Auth : ptr;
  Cert : ptr;
  Key : ptr;
  EncryptedKey : ptr;
  KeyPassphrase : ptr;
  PIAEncPreset : ptr;
  MSSFix : ptr;
  Interface : string;
  ProcessUser : string;
  Verbosity : ptr;
  Flags : slice
}.

(** What the settings file takes from other packages of the repository
    and from the standard library: constants, sentinel errors, and the
    helpers whose outcome depends on the file system or on a codec. *)
Record Externals : Type := mkExternals {
  Openvpn24 : string;
  Openvpn25 : string;
  Custom : string;
  Airvpn : string;
  Cyberghost : string;
  Ivpn : string;
  Mullvad : string;
  PrivateInternetAccess : string;
  VPNSecure : string;
  VPNUnlimited : string;
  Wevpn : string;
  presetsStrong : string;
  ErrOpenVPNVersionIsNotValid : error;
  ErrOpenVPNUserIsEmpty : error;
  ErrOpenVPNPasswordIsEmpty : error;
  ErrFilepathMissing : error;
  ErrMissingValue : error;
  ErrOpenVPNKeyPassphraseIsEmpty : error;
  ErrOpenVPNMSSFixIsTooHigh : error;
  ErrOpenVPNInterfaceNotValid : error;
  ErrOpenVPNVerbosityIsOutOfBounds : error;
  IsOneOf : string -> list string -> bool;
  FileExists : string -> option error;
  extractData : string -> option error;
  base64DecodeString : string -> option error;
  regexpInterfaceNameMatchString : string -> bool;
  regexpInterfaceNameString : string;
  quote : string -> string
}.

Definition isAlnum (c : ascii) : bool :=
  let n := nat_of_ascii c in
  ((48 <=? n) && (n <=? 57) || (65 <=? n) && (n <=? 90) ||
   (97 <=? n) && (n <=? 122))%nat.

(** Three groups of four letters or digits, each after a dash, up to the
    end of the text. *)
Definition ivpnGroups (s : list ascii) : bool :=
  match s with
  | [d1; a1; a2; a3; a4; d2; b1; b2; b3; b4; d3; c1; c2; c3; c4] =>
      bool_decide (d1 = "-"%char) && bool_decide (d2 = "-"%char) &&
      bool_decide (d3 = "-"%char) &&
      forallb isAlnum [a1; a2; a3; a4; b1; b2; b3; b4; c1; c2; c3; c4]
  | _ => false
  end.

(** [ivpnAccountID.MatchString], for the regular expression
    [^(i|ivpn)\-[a-zA-Z0-9]{4}\-[a-zA-Z0-9]{4}\-[a-zA-Z0-9]{4}$]. *)
Definition ivpnAccountIDMatchString (s : string) : bool :=
  match list_ascii_of_string s with
  | i :: rest =>
      bool_decide (i = "i"%char) &&
      (ivpnGroups rest ||
       match rest with
       | v :: p :: n :: rest' =>
           bool_decide (v = "v"%char) && bool_decide (p = "p"%char) &&
           bool_decide (n = "n"%char) && ivpnGroups rest'
       | _ => false
       end)
  | [] => false
  end.

(** [fmt.Errorf("%w", err)]. *)
Definition wrap (err : error) : error := Errorf (Error err) err.

(** [%d] applied to a pointer prints its address. *)
Definition fmtPointer (p : ptr) : string :=
  match p with
  | Some l => pretty (Npos l)
  | None => "0"
  end.

Section Settings.
Variable X : Externals.

Definition validateOpenVPNConfigFilepath (isCustom : bool)
    (confFile : string) : option error :=
  if negb isCustom then None
  else if bool_decide (confFile = "") then Some (wrap (ErrFilepathMissing X))
  else
    match FileExists X confFile with
    | Some err => Some err
    | None =>
        match extractData X confFile with
        | Some err =>
            Some (Errorf ("extracting information from custom configuration file: "
                          +:+ Error err) err)
        | None => None
        end
    end.

Definition validateOpenVPNClientCertificate (vpnProvider clientCert : string)
    : option error :=
  if (bool_decide (vpnProvider = Airvpn X) ||
      bool_decide (vpnProvider = Cyberghost X) ||
      bool_decide (vpnProvider = VPNSecure X) ||
      bool_decide (vpnProvider = VPNUnlimited X)) &&
     bool_decide (clientCert = "")
  then Some (wrap (ErrMissingValue X))
  else if bool_decide (clientCert = "") then None
  else base64DecodeString X clientCert.

Definition validateOpenVPNClientKey (vpnProvider clientKey : string)
    : option error :=
  if (bool_decide (vpnProvider = Airvpn X) ||
      bool_decide (vpnProvider = Cyberghost X) ||
      bool_decide (vpnProvider = VPNUnlimited X) ||
      bool_decide (vpnProvider = Wevpn X)) &&
     bool_decide (clientKey = "")
  then Some (wrap (ErrMissingValue X))
  else if bool_decide (clientKey = "") then None
  else base64DecodeString X clientKey.

Definition validateOpenVPNEncryptedKey (vpnProvider encryptedPrivateKey : string)
    : option error :=
  if bool_decide (vpnProvider = VPNSecure X) &&
     bool_decide (encryptedPrivateKey = "")
  then Some (wrap (ErrMissingValue X))
  else if bool_decide (encryptedPrivateKey = "") then None
  else base64DecodeString X encryptedPrivateKey.

(** [a && b] where evaluating [b] dereferences a pointer. *)
Definition andThen (a : bool) (b : option bool) : option bool :=
  if a then b else Some false.

Definition maxMSSFix : Z := 10000.

(** The checks of [validate] that come before the verbosity check.  The
    outer [None] is a nil pointer dereference, [Some None] means that
    every check passed, [Some (Some err)] is the error returned. *)
Definition validateBeforeVerbosity (o : OpenVPN) (h : heap)
    (vpnProvider : string) : option (option error) :=
  let validVersions := [Openvpn24 X; Openvpn25 X] in
  if negb (IsOneOf X (Version o) validVersions) then
    Some (Some (Errorf (Error (ErrOpenVPNVersionIsNotValid X) +:+ ": " +:+
                        quote X (Version o) +:+ " can only be one of " +:+
                        Openvpn24 X +:+ ", " +:+ Openvpn25 X)
                       (ErrOpenVPNVersionIsNotValid X)))
  else
  let isCustom := bool_decide (vpnProvider = Custom X) in
  let isUserRequired :=
    negb isCustom && negb (bool_decide (vpnProvider = Airvpn X)) &&
    negb (bool_decide (vpnProvider = VPNSecure X)) in
  userIsEmpty ← andThen isUserRequired
    ((λ u, bool_decide (u = "")) <$> loadString h (User o));
  if userIsEmpty : bool then Some (Some (wrap (ErrOpenVPNUserIsEmpty X))) else
  passwordRequired ← andThen isUserRequired
    (if negb (bool_decide (vpnProvider = Ivpn X)) then Some true
     else (λ u, negb (ivpnAccountIDMatchString u)) <$> loadString h (User o));
  passwordIsEmpty ← andThen passwordRequired
    ((λ p, bool_decide (p = "")) <$> loadString h (Password o));
  if passwordIsEmpty : bool then Some (Some (wrap (ErrOpenVPNPasswordIsEmpty X))) else
  confFile ← loadString h (ConfFile o);
  match validateOpenVPNConfigFilepath isCustom confFile with
  | Some err => Some (Some (Errorf ("custom configuration file: " +:+ Error err) err))
  | None =>
  cert ← loadString h (Cert o);
  match validateOpenVPNClientCertificate vpnProvider cert with
  | Some err => Some (Some (Errorf ("client certificate: " +:+ Error err) err))
  | None =>
  key ← loadString h (Key o);
  match validateOpenVPNClientKey vpnProvider key with
  | Some err => Some (Some (Errorf ("client key: " +:+ Error err) err))
  | None =>
  encryptedKey ← loadString h (EncryptedKey o);
  match validateOpenVPNEncryptedKey vpnProvider encryptedKey with
  | Some err => Some (Some (Errorf ("encrypted key: " +:+ Error err) err))
  | None =>
  passphraseMissing ← andThen (negb (bool_decide (encryptedKey = "")))
    ((λ p, bool_decide (p = "")) <$> loadString h (KeyPassphrase o));
  if passphraseMissing : bool
  then Some (Some (wrap (ErrOpenVPNKeyPassphraseIsEmpty X))) else
  mssFix ← loadUint16 h (MSSFix o);
  if mssFix >? maxMSSFix then
    Some (Some (Errorf (Error (ErrOpenVPNMSSFixIsTooHigh X) +:+ ": " +:+
                        pretty mssFix +:+ " is over the maximum value of " +:+
                        pretty maxMSSFix)
                       (ErrOpenVPNMSSFixIsTooHigh X)))
  else
  if negb (regexpInterfaceNameMatchString X (Interface o)) then
    Some (Some (Errorf (Error (ErrOpenVPNInterfaceNotValid X) +:+ ": '" +:+
                        Interface o +:+ "' does not match regex '" +:+
                        regexpInterfaceNameString X +:+ "'")
                       (ErrOpenVPNInterfaceNotValid X)))
  else Some None
  end end end end.

(** The error of the verbosity check.  The format argument is the
    pointer [o.Verbosity] itself. *)
Definition verbosityError (o : OpenVPN) : error :=
  Errorf (Error (ErrOpenVPNVerbosityIsOutOfBounds X) +:+ ": " +:+
          fmtPointer (Verbosity o) +:+ " can only be between 0 and 5")
         (ErrOpenVPNVerbosityIsOutOfBounds X).

Definition validate (o : OpenVPN) (h : heap) (vpnProvider : string)
    : option (option error) :=
  r ← validateBeforeVerbosity o h vpnProvider;
  match r with
  | Some err => Some (Some err)
  | None =>
      verbosity ← loadInt h (Verbosity o);
      if (verbosity <? 0) || (verbosity >? 6)
      then Some (Some (verbosityError o))
      else Some None
  end.

End Settings.

(** *** copy and setDefaults

    [helpers.CopyPointer], [helpers.CopySlice], [helpers.DefaultPointer]
    and [helpers.DefaultString] belong to another package of the
    repository: they are parameters here, and their contracts are stated
    below. *)

Section Helpers.
Variable X : Externals.
Variable CopyPointer : ptr -> heap -> ptr * heap.
Variable CopySlice : slice -> heap -> slice * heap.
Variable DefaultPointer : ptr -> val -> heap -> ptr * heap.
Variable DefaultString : string -> string -> string.

Definition copy (o : OpenVPN) (h : heap) : OpenVPN * heap :=
  let '(user, h) := CopyPointer (User o) h in
  let '(password, h) := CopyPointer (Password o) h in
  let '(confFile, h) := CopyPointer (ConfFile o) h in
  let '(ciphers, h) := CopySlice (Ciphers o) h in
  let '(auth, h) := CopyPointer (Auth o) h in
  let '(cert, h) := CopyPointer (Cert o) h in
  let '(key, h) := CopyPointer (Key o) h in
  let '(encryptedKey, h) := CopyPointer (EncryptedKey o) h in
  let '(keyPassphrase, h) := CopyPointer (KeyPassphrase o) h in
  let '(piaEncPreset, h) := CopyPointer (PIAEncPreset o) h in
  let '(mssFix, h) := CopyPointer (MSSFix o) h in
  let '(verbosity, h) := CopyPointer (Verbosity o) h in
  let '(flags, h) := CopySlice (Flags o) h in
  ({| Version := Version o;
      User := user;
      Password := password;
      ConfFile := confFile;
      Ciphers := ciphers;
      Auth := auth;
      Cert := cert;
      Key := key;
      EncryptedKey := encryptedKey;
      KeyPassphrase := keyPassphrase;
      PIAEncPreset := piaEncPreset;
      MSSFix := mssFix;
      Interface := Interface o;
      ProcessUser := ProcessUser o;
      Verbosity := verbosity;
      Flags := flags |}, h).

Definition setDefaults (o : OpenVPN) (h : heap) (vpnProvider : string)
    : OpenVPN * heap :=
  let version := DefaultString (Version o) (Openvpn25 X) in
  let '(user, h) := DefaultPointer (User o) (VString "") h in
  let '(password, h) :=
    if bool_decide (vpnProvider = Mullvad X)
    then DefaultPointer (Password o) (VString "m") h
    else DefaultPointer (Password o) (VString "") h in
  let '(confFile, h) := DefaultPointer (ConfFile o) (VString "") h in
  let '(auth, h) := DefaultPointer (Auth o) (VString "") h in
  let '(cert, h) := DefaultPointer (Cert o) (VString "") h in
  let '(key, h) := DefaultPointer (Key o) (VString "") h in
  let '(encryptedKey, h) := DefaultPointer (EncryptedKey o) (VString "") h in
  let '(keyPassphrase, h) := DefaultPointer (KeyPassphrase o) (VString "") h in
  let defaultEncPreset :=
    if bool_decide (vpnProvider = PrivateInternetAccess X)
    then presetsStrong X else "" in
  let '(piaEncPreset, h) :=
    DefaultPointer (PIAEncPreset o) (VString defaultEncPreset) h in
  let '(mssFix, h) := DefaultPointer (MSSFix o) (VUint16 0) h in
  let interface := DefaultString (Interface o) "tun0" in
  let processUser := DefaultString (ProcessUser o) "root" in
  let '(verbosity, h) := DefaultPointer (Verbosity o) (VInt 1) h in
  ({| Version := version;
      User := user;
      Password := password;
      ConfFile := confFile;
      Ciphers := Ciphers o;
      Auth := auth;
      Cert := cert;
      Key := key;
      EncryptedKey := encryptedKey;
      KeyPassphrase := keyPassphrase;
      PIAEncPreset := piaEncPreset;
      MSSFix := mssFix;
      Interface := interface;
      ProcessUser := processUser;
      Verbosity := verbosity;
      Flags := Flags o |}, h).

End Helpers.

(** Contract of [CopyPointer]: nil for nil; otherwise a pointer to a new
    cell that holds the pointee, nothing else changed. *)
Definition CopyPointerContract (CopyPointer : ptr -> heap -> ptr * heap) : Prop :=
  (forall h, CopyPointer None h = (None, h)) /\
  (forall h l v, h !! l = Some v ->
     exists l', h !! l' = None /\
                CopyPointer (Some l) h = (Some l', <[l' := v]> h)).

(** A slice is in bounds when it is nil or lies within its array. *)
Definition inBounds (h : heap) (s : slice) : Prop :=
  match array s with
  | Some l =>
      exists xs, h !! l = Some (VArray xs) /\ (offset s + len s <= length xs)%nat
  | None => True
  end.

(** Contract of [CopySlice]: nil for nil; otherwise a slice of the same
    length over a new array that holds the elements, nothing else changed. *)
Definition CopySliceContract (CopySlice : slice -> heap -> slice * heap) : Prop :=
  (forall h s, array s = None -> CopySlice s h = (nilSlice, h)) /\
  (forall h s, array s <> None -> inBounds h s ->
     exists l', h !! l' = None /\
                CopySlice s h =
                  (mkSlice (Some l') 0 (len s) (len s),
                   <[l' := VArray (elems h s)]> h)).

(** Contract of [DefaultPointer]: the existing pointer when it is not
    nil; otherwise a pointer to a new cell that holds the default. *)
Definition DefaultPointerContract
    (DefaultPointer : ptr -> val -> heap -> ptr * heap) : Prop :=
  (forall l d h, DefaultPointer (Some l) d h = (Some l, h)) /\
  (forall d h, exists l', h !! l' = None /\
                          DefaultPointer None d h = (Some l', <[l' := d]> h)).

(** Contract of [DefaultString]: the existing string when it is not
    empty, the default otherwise. *)
Definition DefaultStringContract (DefaultString : string -> string -> string) : Prop :=
  forall existing d,
    DefaultString existing d = if bool_decide (existing = "") then d else existing.

(** The pointer and slice fields of the settings. *)
Definition pointerFields (o : OpenVPN) : list ptr :=
  [User o; Password o; ConfFile o; Auth o; Cert o; Key o; EncryptedKey o;
   KeyPassphrase o; PIAEncPreset o; MSSFix o; Verbosity o].

Definition sliceFields (o : OpenVPN) : list slice :=
  [Ciphers o; Flags o].

(** Every cell the settings point to. *)
Definition cells (o : OpenVPN) : list ptr :=
  pointerFields o ++ (array <$> sliceFields o).

(** The settings as read through their pointers: each string, what each
    pointer points to, the elements of each slice and whether it is nil. *)
Definition view (h : heap) (o : OpenVPN)
    : list string * list (option val) * list (bool * list string) :=
  ([Version o; Interface o; ProcessUser o],
   load h <$> pointerFields o,
   (fun s => (bool_decide (array s = None), elems h s)) <$> sliceFields o).

(** Go keeps every pointer that is not nil on a live cell, and every
    slice within its array. *)
Definition wellFormed (h : heap) (o : OpenVPN) : Prop :=
  Forall (allocated h) (pointerFields o) /\ Forall (inBounds h) (sliceFields o).

(** A reference implementation of the helpers: the new cell is the first
    address the heap does not use. *)
Module reference.

Definition new (h : heap) : loc := fresh (dom h).

Definition CopyPointer (original : ptr) (h : heap) : ptr * heap :=
  match original with
  | None => (None, h)
  | Some l =>
      match h !! l with
      | Some v => let copied := new h in (Some copied, <[copied := v]> h)
      | None => (None, h)
      end
  end.

Definition CopySlice (original : slice) (h : heap) : slice * heap :=
  match array original with
  | None => (nilSlice, h)
  | Some _ =>
      let xs := elems h original in
      let copied := new h in
      (mkSlice (Some copied) 0 (len original) (len original),
       <[copied := VArray xs]> h)
  end.

Definition DefaultPointer (existing : ptr) (defaultValue : val) (h : heap)
    : ptr * heap :=
  match existing with
  | Some l => (Some l, h)
  | None => let result := new h in (Some result, <[result := defaultValue]> h)
  end.

Definition DefaultString (existing defaultValue : string) : string :=
  if bool_decide (existing = "") then defaultValue else existing.

End reference.

End settings.

(* ===================================================================== *)
(** ** Package updater of the Cyberghost provider *)
(* ===================================================================== *)

Module updater.
Import errors.

Section Updater.
(** The server table, the resolver and the ordering of servers belong to
    other files and packages of the repository: they are parameters. *)
Variables Ctx hostToServer hostToIPs Server : Type.
Variable getPossibleServers : hostToServer.
Variable hostsSlice : hostToServer -> list string.
Variable adaptWithIPs : hostToServer -> hostToIPs -> hostToServer.
Variable toSlice : hostToServer -> list Server.
(** [u.presolver.Resolve]: the addresses per host, warnings, an error. *)
Variable Resolve :
  Ctx -> list string -> Z -> hostToIPs * list string * option error.
(** [models.SortableServers.Less], on the two elements compared. *)
Variable Less : Server -> Server -> bool.
(** [sort.Sort] of the standard library, on [models.SortableServers]. *)
Variable sortSort : list Server -> list Server.

(** The result is the pair of the server slice ([None] is the nil slice)
    and the error. *)
Definition FetchServers (ctx : Ctx) (minServers : Z)
    : option (list Server) * option error :=
  let possibleServers := getPossibleServers in
  let possibleHosts := hostsSlice possibleServers in
  let '(hostToIPs, _, err) := Resolve ctx possibleHosts minServers in
  match err with
  | Some err => (None, Some err)
  | None =>
      let possibleServers := adaptWithIPs possibleServers hostToIPs in
      let servers := toSlice possibleServers in
      let servers := sortSort servers in
      (Some servers, None)
  end.

(** [sort.IsSorted]: no element is less than the one before it. *)
Fixpoint IsSorted (data : list Server) : bool :=
  match data with
  | a :: (b :: _) as rest => negb (Less b a) && IsSorted rest
  | _ => true
  end.

(** What [sort.Sort] promises: the same elements, in ascending order as
    determined by [Less]. *)
Definition sortContract : Prop :=
  forall data, sortSort data ≡ₚ data /\ IsSorted (sortSort data) = true.

End Updater.

End updater.

(* ===================================================================== *)
(** ** Address ranges, as the addressing rules give them *)
(* ===================================================================== *)

Module ranges.
Import netip.

(** An address is a V4 address in either of its two encodings, the bare
    4-byte form and the V4-mapped-V6 form ::ffff:a.b.c.d; every other
    address in 16-byte form is a genuine V6 address. *)
Definition isV4 (ip : Addr) : bool := Is4 ip || Is4In6 ip.
Definition isV6 (ip : Addr) : bool := Is6 ip && negb (Is4In6 ip).

(** The number a V4 address stands for, in both encodings the low 32
    bits. *)
Definition value4 (ip : Addr) : Z := lo (addr ip) mod 2 ^ 32.

(** The number a V6 address stands for. *)
Definition value6 (ip : Addr) : Z := hi (addr ip) * 2 ^ 64 + lo (addr ip).

Definition ipv4 (a b c d : Z) : Z := a * 2 ^ 24 + b * 2 ^ 16 + c * 2 ^ 8 + d.

(** The first 16-bit group [g] of an IPv6 prefix, as a number. *)
Definition ipv6 (g : Z) : Z := g * 2 ^ 112.

(** [inBlock w base n v]: [v] lies in the block [base/n] of [w]-bit
    addresses. *)
Definition inBlock (w base n v : Z) : Prop :=
  base <= v < base + 2 ^ (w - n).

(** RFC 1918 and RFC 4193. *)
Definition PrivateUse (ip : Addr) : Prop :=
  (isV4 ip = true /\
   (inBlock 32 (ipv4 10 0 0 0) 8 (value4 ip) \/
    inBlock 32 (ipv4 172 16 0 0) 12 (value4 ip) \/
    inBlock 32 (ipv4 192 168 0 0) 16 (value4 ip))) \/
  (isV6 ip = true /\ inBlock 128 (ipv6 64512) 7 (value6 ip)).

(** 127.0.0.0/8 and ::1. *)
Definition Loopback (ip : Addr) : Prop :=
  (isV4 ip = true /\ inBlock 32 (ipv4 127 0 0 0) 8 (value4 ip)) \/
  (isV6 ip = true /\ value6 ip = 1).

(** 169.254.0.0/16 and fe80::/10. *)
Definition LinkLocalUnicast (ip : Addr) : Prop :=
  (isV4 ip = true /\ inBlock 32 (ipv4 169 254 0 0) 16 (value4 ip)) \/
  (isV6 ip = true /\ inBlock 128 (ipv6 65152) 10 (value6 ip)).

(** 224.0.0.0/24 and the multicast addresses of link-local scope,
    ffx2::/16 for each value x of the flags. *)
Definition LinkLocalMulticast (ip : Addr) : Prop :=
  (isV4 ip = true /\ inBlock 32 (ipv4 224 0 0 0) 24 (value4 ip)) \/
  (isV6 ip = true /\
   exists flags, 0 <= flags < 16 /\
     inBlock 128 (ipv6 (65282 + 16 * flags)) 16 (value6 ip)).

(** The addresses that stay out of the tunnel.  A V4 address belongs to
    them by its value, whichever of its two encodings it comes in. *)
Definition Excluded (ip : Addr) : Prop :=
  PrivateUse ip \/ Loopback ip \/ LinkLocalUnicast ip \/ LinkLocalMulticast ip.

End ranges.

(* ===================================================================== *)
(** ** The family test, as the specification words it *)
(* ===================================================================== *)

Module specification.
Import netip.

(** An address matches family V6 when it is a genuine V6 address, and
    family V4 when it is a V4 address, the V4-mapped-V6 form included.
    This follows the words of the specification, to be compared with
    [routing.ipMatchesFamily]. *)
Definition MatchesFamily (F4 F6 : Z) (ip : Addr) (family : Z) : bool :=
  ((family =? F6) && ranges.isV6 ip) ||
  ((family =? F4) && ranges.isV4 ip).

End specification.

(* ===================================================================== *)
(** ** Sample values *)
(* ===================================================================== *)

Module samples.
Import errors mem.

(** The values of AF_INET and AF_INET6 on Linux. *)
Definition FAMILY_V4 : Z := 2.
Definition FAMILY_V6 : Z := 10.

(** A conversion from [net.IP] through [netip.AddrFromSlice]. *)
Definition conv (ip : net.IP) : netip.Addr := (netip.AddrFromSlice ip).1.

(** fe80::1 *)
Definition linkLocal : net.IP := [254; 128; 0; 0; 0; 0; 0; 0; 0; 0; 0; 0; 0; 0; 0; 1].

(** 10.8.0.2 in 16-byte form. *)
Definition tunnel : net.IP := [0; 0; 0; 0; 0; 0; 0; 0; 0; 0; 255; 255; 10; 8; 0; 2].

Definition tun0Addrs : list net.Addr :=
  [net.OtherAddr "unix" "/run/sock";
   net.IPNet linkLocal [255; 255; 255; 255; 255; 255; 255; 255; 0; 0; 0; 0; 0; 0; 0; 0];
   net.IPNet tunnel [255; 255; 255; 0]].

Definition tun0 : net.Interface := net.mkInterface "tun0" (net.Ok tun0Addrs).

(** An interface that has only its link-local address yet. *)
Definition tun1 : net.Interface :=
  net.mkInterface "tun1" (net.Ok [net.IPAddr linkLocal ""]).

Definition noSuchInterface : error := New "route ip+net: no such network interface".

Definition host : net.Host :=
  net.mkHost (fun name =>
    if bool_decide (name = "tun0") then net.Ok tun0
    else if bool_decide (name = "tun1") then net.Ok tun1
    else net.Err noSuchInterface).

(** An interface that lists the tunnel address, in 16-byte form, before
    its link-local address, and one that lists the tunnel address only. *)
Definition tun2 : net.Interface :=
  net.mkInterface "tun2"
    (net.Ok [net.IPNet tunnel [255; 255; 255; 0];
             net.IPNet linkLocal [255; 255; 255; 255; 255; 255; 255; 255; 0; 0; 0; 0; 0; 0; 0; 0]]).

Definition tun3 : net.Interface :=
  net.mkInterface "tun3" (net.Ok [net.IPNet tunnel [255; 255; 255; 0]]).

Definition host2 : net.Host :=
  net.mkHost (fun name =>
    if bool_decide (name = "tun2") then net.Ok tun2
    else if bool_decide (name = "tun3") then net.Ok tun3
    else net.Err noSuchInterface).

(** Values of the constants and helpers the settings take from other
    packages. *)
Definition externals : settings.Externals := {|
  settings.Openvpn24 := "2.4";
  settings.Openvpn25 := "2.5";
  settings.Custom := "custom";
  settings.Airvpn := "airvpn";
  settings.Cyberghost := "cyberghost";
  settings.Ivpn := "ivpn";
  settings.Mullvad := "mullvad";
  settings.PrivateInternetAccess := "private internet access";
  settings.VPNSecure := "vpnsecure";
  settings.VPNUnlimited := "vpn unlimited";
  settings.Wevpn := "wevpn";
  settings.presetsStrong := "strong";
  settings.ErrOpenVPNVersionIsNotValid := New "version is not valid";
  settings.ErrOpenVPNUserIsEmpty := New "user is empty";
  settings.ErrOpenVPNPasswordIsEmpty := New "password is empty";
  settings.ErrFilepathMissing := New "filepath is missing";
  settings.ErrMissingValue := New "missing value";
  settings.ErrOpenVPNKeyPassphraseIsEmpty := New "key passphrase is empty";
  settings.ErrOpenVPNMSSFixIsTooHigh := New "mssfix option value is too high";
  settings.ErrOpenVPNInterfaceNotValid := New "interface name is not valid";
  settings.ErrOpenVPNVerbosityIsOutOfBounds := New "verbosity value is out of bounds";
  settings.IsOneOf := fun value choices => bool_decide (value ∈ choices);
  settings.FileExists := fun _ => None;
  settings.extractData := fun _ => None;
  settings.base64DecodeString := fun _ => None;
  settings.regexpInterfaceNameMatchString := fun s => negb (bool_decide (s = ""));
  settings.regexpInterfaceNameString := "^[a-zA-Z0-9_]+$";
  settings.quote := fun s => String (ascii_of_nat 34) (s +:+ String (ascii_of_nat 34) "")
|}.

(** A heap with the cells of the settings below. *)
Definition heap0 : heap :=
  list_to_map
    [(1%positive, VString "alice"); (2%positive, VString "secret");
     (3%positive, VString ""); (4%positive, VString "");
     (5%positive, VString ""); (6%positive, VString "");
     (7%positive, VString ""); (8%positive, VString "");
     (9%positive, VString ""); (10%positive, VUint16 1300);
     (11%positive, VInt 1);
     (12%positive, VArray ["aes-256-gcm"; "aes-128-gcm"; "aes-256-cbc"])].

(** Settings with every pointer set; the ciphers are the first two
    elements of an array of three. *)
Definition openvpn : settings.OpenVPN := {|
  settings.Version := "2.5";
  settings.User := Some 1%positive;
  settings.Password := Some 2%positive;
  settings.ConfFile := Some 3%positive;
  settings.Ciphers := mkSlice (Some 12%positive) 0 2 3;
  settings.Auth := Some 4%positive;
  settings.Cert := Some 5%positive;
  settings.Key := Some 6%positive;
  settings.EncryptedKey := Some 7%positive;
  settings.KeyPassphrase := Some 8%positive;
  settings.PIAEncPreset := Some 9%positive;
  settings.MSSFix := Some 10%positive;
  settings.Interface := "tun0";
  settings.ProcessUser := "root";
  settings.Verbosity := Some 11%positive;
  settings.Flags := nilSlice
|}.

(** Settings read from the environment, before defaults: only the user
    and the ciphers are set. *)
Definition partial : settings.OpenVPN := {|
  settings.Version := "";
  settings.User := Some 1%positive;
  settings.Password := None;
  settings.ConfFile := None;
  settings.Ciphers := mkSlice (Some 12%positive) 0 2 3;
  settings.Auth := None;
  settings.Cert := None;
  settings.Key := None;
  settings.EncryptedKey := None;
  settings.KeyPassphrase := None;
  settings.PIAEncPreset := None;
  settings.MSSFix := None;
  settings.Interface := "";
  settings.ProcessUser := "";
  settings.Verbosity := None;
  settings.Flags := nilSlice
|}.

(** A small server table for the updater: a server is a number and a
    host name, ordered by the number. *)
Definition Server : Type := Z * string.

Definition possibleServers : list Server :=
  [(3, "c.example.org"); (1, "a.example.org"); (2, "b.example.org")].

Definition Less (a b : Server) : bool := a.1 <? b.1.

Definition sortSort (data : list Server) : list Server :=
  @merge_sort Server (fun a b => Less b a = false)
    (fun a b => bool_eq_dec (Less b a) false) data.

(** A resolver that answers for every host. *)
Definition resolveAll (ctx : unit) (hosts : list string) (minServers : Z)
    : (string -> list string) * list string * option error :=
  (fun _ => ["192.0.2.7"], [], None).

(** Keeps the servers of the table as they are. *)
Definition keepAll (servers : list Server) (hostToIPs : string -> list string)
    : list Server := servers.

End samples.

(* ===================================================================== *)
(** ** Package settings: merging, overriding and printing *)
(* ===================================================================== *)

Module settings_methods.
Import errors mem settings.

(** The pointers to strings among the settings. *)
Definition stringPointers (o : OpenVPN) : list ptr :=
  [User o; Password o; ConfFile o; Auth o; Cert o; Key o; EncryptedKey o;
   KeyPassphrase o; PIAEncPreset o].

(** Every pointer that is not nil points to a value of its type. *)
Definition wellTyped (h : heap) (o : OpenVPN) : Prop :=
  Forall (fun p => p <> None -> is_Some (loadString h p)) (stringPointers o) /\
  (MSSFix o <> None -> is_Some (loadUint16 h (MSSFix o))) /\
  (Verbosity o <> None -> is_Some (loadInt h (Verbosity o))).

(** Every pointer can be dereferenced at its type. *)
Definition readable (h : heap) (o : OpenVPN) : Prop :=
  Forall (fun p => is_Some (loadString h p)) (stringPointers o) /\
  is_Some (loadUint16 h (MSSFix o)) /\
  is_Some (loadInt h (Verbosity o)).

(** The defaults [setDefaults] has for the pointers, in the order of
    [pointerFields]. *)
Definition pointerDefaults (X : Externals) (vpnProvider : string) : list val :=
  [VString "";
   VString (if bool_decide (vpnProvider = Mullvad X) then "m" else "");
   VString ""; VString ""; VString ""; VString ""; VString ""; VString "";
   VString (if bool_decide (vpnProvider = PrivateInternetAccess X)
            then presetsStrong X else "");
   VUint16 0;
   VInt 1].

(** The settings with other credentials. *)
Definition withCredentials (o : OpenVPN) (user password : ptr) : OpenVPN :=
  {| Version := Version o;
     User := user;
     Password := password;
     ConfFile := ConfFile o;
     Ciphers := Ciphers o;
     Auth := Auth o;
     Cert := Cert o;
     Key := Key o;
     EncryptedKey := EncryptedKey o;
     KeyPassphrase := KeyPassphrase o;
     PIAEncPreset := PIAEncPreset o;
     MSSFix := MSSFix o;
     Interface := Interface o;
     ProcessUser := ProcessUser o;
     Verbosity := Verbosity o;
     Flags := Flags o |}.

Section Merging.
(** The helpers of package helpers that merge and override one value. *)
Variable MergeWithString : string -> string -> string.
Variable MergeWithPointer : ptr -> ptr -> heap -> ptr * heap.
Variable MergeSlices : slice -> slice -> heap -> slice * heap.
Variable OverrideWithString : string -> string -> string.
Variable OverrideWithPointer : ptr -> ptr -> heap -> ptr * heap.
Variable OverrideWithSlice : slice -> slice -> heap -> slice * heap.

(** mergeWith merges the other settings into any unset field of the
    receiver settings object. *)
Definition mergeWith (o other : OpenVPN) (h : heap) : OpenVPN * heap :=
  let version := MergeWithString (Version o) (Version other) in
  let '(user, h) := MergeWithPointer (User o) (User other) h in
  let '(password, h) := MergeWithPointer (Password o) (Password other) h in
  let '(confFile, h) := MergeWithPointer (ConfFile o) (ConfFile other) h in
  let '(ciphers, h) := MergeSlices (Ciphers o) (Ciphers other) h in
  let '(auth, h) := MergeWithPointer (Auth o) (Auth other) h in
  let '(cert, h) := MergeWithPointer (Cert o) (Cert other) h in
  let '(key, h) := MergeWithPointer (Key o) (Key other) h in
  let '(encryptedKey, h) := MergeWithPointer (EncryptedKey o) (EncryptedKey other) h in
  let '(keyPassphrase, h) := MergeWithPointer (KeyPassphrase o) (KeyPassphrase other) h in
  let '(piaEncPreset, h) := MergeWithPointer (PIAEncPreset o) (PIAEncPreset other) h in
  let '(mssFix, h) := MergeWithPointer (MSSFix o) (MSSFix other) h in
  let interface := MergeWithString (Interface o) (Interface other) in
  let processUser := MergeWithString (ProcessUser o) (ProcessUser other) in
  let '(verbosity, h) := MergeWithPointer (Verbosity o) (Verbosity other) h in
  let '(flags, h) := MergeSlices (Flags o) (Flags other) h in
  ({| Version := version;
      User := user;
      Password := password;
      ConfFile := confFile;
      Ciphers := ciphers;
      Auth := auth;
      Cert := cert;
      Key := key;
      EncryptedKey := encryptedKey;
      KeyPassphrase := keyPassphrase;
      PIAEncPreset := piaEncPreset;
      MSSFix := mssFix;
      Interface := interface;
      ProcessUser := processUser;
      Verbosity := verbosity;
      Flags := flags |}, h).

(** overrideWith overrides fields of the receiver settings object with
    any field set in the other settings. *)
Definition overrideWith (o other : OpenVPN) (h : heap) : OpenVPN * heap :=
  let version := OverrideWithString (Version o) (Version other) in
  let '(user, h) := OverrideWithPointer (User o) (User other) h in
  let '(password, h) := OverrideWithPointer (Password o) (Password other) h in
  let '(confFile, h) := OverrideWithPointer (ConfFile o) (ConfFile other) h in
  let '(ciphers, h) := OverrideWithSlice (Ciphers o) (Ciphers other) h in
  let '(auth, h) := OverrideWithPointer (Auth o) (Auth other) h in
  let '(cert, h) := OverrideWithPointer (Cert o) (Cert other) h in
  let '(key, h) := OverrideWithPointer (Key o) (Key other) h in
  let '(encryptedKey, h) := OverrideWithPointer (EncryptedKey o) (EncryptedKey other) h in
  let '(keyPassphrase, h) := OverrideWithPointer (KeyPassphrase o) (KeyPassphrase other) h in
  let '(piaEncPreset, h) := OverrideWithPointer (PIAEncPreset o) (PIAEncPreset other) h in
  let '(mssFix, h) := OverrideWithPointer (MSSFix o) (MSSFix other) h in
  let interface := OverrideWithString (Interface o) (Interface other) in
  let processUser := OverrideWithString (ProcessUser o) (ProcessUser other) in
  let '(verbosity, h) := OverrideWithPointer (Verbosity o) (Verbosity other) h in
  let '(flags, h) := OverrideWithSlice (Flags o) (Flags other) h in
  ({| Version := version;
      User := user;
      Password := password;
      ConfFile := confFile;
      Ciphers := ciphers;
      Auth := auth;
      Cert := cert;
      Key := key;
      EncryptedKey := encryptedKey;
      KeyPassphrase := keyPassphrase;
      PIAEncPreset := piaEncPreset;
      MSSFix := mssFix;
      Interface := interface;
      ProcessUser := processUser;
      Verbosity := verbosity;
      Flags := flags |}, h).

End Merging.

(** A merging helper keeps a value that is set, as the comment of
    [mergeWith] says; whatever it does otherwise, it only adds cells. *)
Definition MergeWithStringKeeps (f : string -> string -> string) : Prop :=
  forall existing other, existing <> "" -> f existing other = existing.

Definition MergeWithPointerKeeps (f : ptr -> ptr -> heap -> ptr * heap) : Prop :=
  (forall l other h, f (Some l) other h = (Some l, h)) /\
  (forall existing other h, h ⊆ (f existing other h).2).

Definition SliceHelperGrows (f : slice -> slice -> heap -> slice * heap) : Prop :=
  forall a b h, h ⊆ (f a b h).2.

(** An overriding helper keeps the existing value when the other one is
    not set, as the comment of [overrideWith] says; whatever it does
    otherwise, it only adds cells. *)
Definition OverrideWithStringKeeps (f : string -> string -> string) : Prop :=
  forall existing, f existing "" = existing.

Definition OverrideWithPointerKeeps (f : ptr -> ptr -> heap -> ptr * heap) : Prop :=
  (forall existing h, f existing None h = (existing, h)) /\
  (forall existing other h, h ⊆ (f existing other h).2).

(** Reference helpers: a value that is taken from the other settings is
    copied to a new cell; the slice helpers here keep the existing slice. *)
Module merging.

Definition MergeWithString (existing other : string) : string :=
  if bool_decide (existing = "") then other else existing.

Definition MergeWithPointer (existing other : ptr) (h : heap) : ptr * heap :=
  match existing with
  | Some l => (Some l, h)
  | None => reference.CopyPointer other h
  end.

Definition OverrideWithString (existing other : string) : string :=
  if bool_decide (other = "") then existing else other.

Definition OverrideWithPointer (existing other : ptr) (h : heap) : ptr * heap :=
  match other with
  | Some _ => reference.CopyPointer other h
  | None => (existing, h)
  end.

Definition keepSlice (existing other : slice) (h : heap) : slice * heap :=
  (existing, h).

End merging.

(** *** Printing *)

(** A node of the tree that is printed: its title and the lines appended
    to it. *)
Record Node : Type := mkNode {
  title : string;
  children : list string
}.

(** [node.Appendf]. *)
Definition Appendf (node : Node) (line : string) : Node :=
  mkNode (title node) (children node ++ [line]).

Fixpoint joinSpace (xs : list string) : string :=
  match xs with
  | [] => ""
  | [x] => x
  | x :: rest => x +:+ " " +:+ joinSpace rest
  end.

(** [%s] applied to a slice of strings. *)
Definition fmtStrings (xs : list string) : string :=
  "[" +:+ joinSpace xs +:+ "]".

Section Printing.
(** [helpers.ObfuscatePassword] and [helpers.ObfuscateData]. *)
Variable ObfuscatePassword : string -> string.
Variable ObfuscateData : string -> string.

(** The outer [None] is a nil pointer dereference. *)
Definition toLinesNode (o : OpenVPN) (h : heap) : option Node :=
  let node := mkNode "OpenVPN settings:" [] in
  let node := Appendf node ("OpenVPN version: " +:+ Version o) in
  user ← loadString h (User o);
  let node := Appendf node ("User: " +:+ ObfuscatePassword user) in
  password ← loadString h (Password o);
  let node := Appendf node ("Password: " +:+ ObfuscatePassword password) in
  confFile ← loadString h (ConfFile o);
  let node :=
    if negb (bool_decide (confFile = ""))
    then Appendf node ("Custom configuration file: " +:+ confFile) else node in
  let node :=
    if (0 <? len (Ciphers o))%nat
    then Appendf node ("Ciphers: " +:+ fmtStrings (elems h (Ciphers o))) else node in
  auth ← loadString h (Auth o);
  let node :=
    if negb (bool_decide (auth = ""))
    then Appendf node ("Auth: " +:+ auth) else node in
  cert ← loadString h (Cert o);
  let node :=
    if negb (bool_decide (cert = ""))
    then Appendf node ("Client crt: " +:+ ObfuscateData cert) else node in
  key ← loadString h (Key o);
  let node :=
    if negb (bool_decide (key = ""))
    then Appendf node ("Client key: " +:+ ObfuscateData key) else node in
  encryptedKey ← loadString h (EncryptedKey o);
  node ← (if negb (bool_decide (encryptedKey = ""))
          then keyPassphrase ← loadString h (KeyPassphrase o);
               Some (Appendf node ("Encrypted key: " +:+ ObfuscateData encryptedKey +:+
                                   " (key passhrapse " +:+
                                   ObfuscatePassword keyPassphrase +:+ ")"))
          else Some node);
  piaEncPreset ← loadString h (PIAEncPreset o);
  let node :=
    if negb (bool_decide (piaEncPreset = ""))
    then Appendf node ("Private Internet Access encryption preset: " +:+ piaEncPreset)
    else node in
  mssFix ← loadUint16 h (MSSFix o);
  let node :=
    if mssFix >? 0 then Appendf node ("MSS Fix: " +:+ pretty mssFix) else node in
  let node :=
    if negb (bool_decide (Interface o = ""))
    then Appendf node ("Network interface: " +:+ Interface o) else node in
  let node := Appendf node ("Run OpenVPN as: " +:+ ProcessUser o) in
  verbosity ← loadInt h (Verbosity o);
  let node := Appendf node ("Verbosity level: " +:+ pretty verbosity) in
  let node :=
    if (0 <? len (Flags o))%nat
    then Appendf node ("Flags: " +:+ fmtStrings (elems h (Flags o))) else node in
  Some node.

End Printing.

End settings_methods.

(* ===================================================================== *)
(** * Properties *)
(* ===================================================================== *)

(** ** Strings and errors *)

Module basics.
Import errors.

Lemma append_assoc (s1 s2 s3 : string) :
  (s1 +:+ s2) +:+ s3 = s1 +:+ (s2 +:+ s3).
Proof.
  induction s1 as [|c s1 IH]; [reflexivity |].
  change (String c ((s1 +:+ s2) +:+ s3) = String c (s1 +:+ (s2 +:+ s3))).
  f_equal. exact IH.
Qed.

Lemma error_eqb_refl (e : error) : error_eqb e e = true.
Proof.
  induction e as [t|t w IH]; simpl.
  - apply bool_decide_eq_true_2. reflexivity.
  - rewrite IH, bool_decide_eq_true_2; reflexivity.
Qed.

Lemma Is_refl (e : error) : Is e e = true.
Proof. destruct e; cbn [Is]; rewrite error_eqb_refl; reflexivity. Qed.

(** An error built with [%w] is the error it wraps, for [errors.Is]. *)
Lemma Is_Errorf (t : string) (e : error) : Is (Errorf t e) e = true.
Proof. cbn [Is]. rewrite Is_refl. apply orb_true_r. Qed.

End basics.

(** ** Address families *)

Module family_facts.
Import netip routing.

Lemma Unmap_not_Is4In6 (ip : Addr) : Is4In6 (Unmap ip) = false.
Proof.
  unfold Unmap. destruct (Is4In6 ip) eqn:E; [reflexivity | exact E].
Qed.

Lemma Unmap_id (ip : Addr) : Is4In6 ip = false -> Unmap ip = ip.
Proof. unfold Unmap. intros ->. reflexivity. Qed.

Lemma Unmap_mapped (ip : Addr) :
  Is4In6 ip = true -> Unmap ip = mkAddr (addr ip) z4.
Proof. unfold Unmap. intros ->. reflexivity. Qed.

Lemma Is4In6_Is6 (ip : Addr) : Is4In6 ip = true -> Is6 ip = true.
Proof.
  unfold Is4In6. intros H.
  apply andb_true_iff in H as [H _]. apply andb_true_iff in H as [H _]. exact H.
Qed.

(** What [ipMatchesFamily] decides, read off its definition. *)
Lemma ipMatchesFamily_iff (F4 F6 : Z) (ip : Addr) (family : Z) :
  ipMatchesFamily F4 F6 ip family = true <->
  (family = F6 /\ Is6 ip = true) \/
  (family = F4 /\ (Is4 ip = true \/ Is4In6 ip = true)).
Proof.
  unfold ipMatchesFamily.
  rewrite orb_true_iff, !andb_true_iff, orb_true_iff, !Z.eqb_eq. tauto.
Qed.

Lemma mapped_matches_V4 (F4 F6 : Z) (ip : Addr) :
  Is4In6 ip = true -> ipMatchesFamily F4 F6 ip F4 = true.
Proof. intros H. apply ipMatchesFamily_iff. right. auto. Qed.

(** C1. A V4 address in V4-mapped-V6 form, here ::ffff:192.0.2.1, is
    accepted for family V4 and, contrary to the specification, for family
    V6 as well: [Is6] holds of every address in 16-byte form, the mapped
    ones included, and the V6 branch of [ipMatchesFamily] does not set
    them apart. *)
Theorem ipMatchesFamily_mapped_accepts_V6 (F4 F6 : Z) :
  Is4In6 (mapped 192 0 2 1) = true /\
  ipMatchesFamily F4 F6 (mapped 192 0 2 1) F4 = true /\
  ipMatchesFamily F4 F6 (mapped 192 0 2 1) F6 = true.
Proof.
  split; [reflexivity |]. split.
  - apply mapped_matches_V4. reflexivity.
  - apply ipMatchesFamily_iff. left. split; reflexivity.
Qed.

End family_facts.

(** ** The interface address resolver *)

Module resolver_facts.
Import errors netip routing family_facts.

Section Loop.
Variables F4 F6 : Z.
Variable conv : net.IP -> Addr.

Local Abbreviation matches := (entryMatches F4 F6 conv).
Local Abbreviation loop := (assignedIP_loop F4 F6 conv).

(** The loop skips the entries that do not match. *)
Lemma loop_skip family pre rest ip :
  Forall (fun x => matches family x = false) pre ->
  exists ip', loop family (pre ++ rest) ip = loop family rest ip'.
Proof.
  intros H. revert ip. induction H as [|x pre Hx _ IH]; intros ip.
  - exists ip. reflexivity.
  - simpl. unfold entryMatches, entryIP in Hx.
    destruct x as [v zone|v mask|nw txt]; simpl in *.
    + rewrite Hx. simpl. apply IH.
    + rewrite Hx. simpl. apply IH.
    + apply IH.
Qed.

(** The loop returns at the first entry that matches. *)
Lemma loop_hit family a rest ip m :
  entryIP conv a = Some m -> ipMatchesFamily F4 F6 m family = true ->
  loop family (a :: rest) ip = inl (Unmap m).
Proof.
  intros Ha Hm. destruct a as [v zone|v mask|nw txt]; simpl in *;
    try discriminate; injection Ha as <-; rewrite Hm; reflexivity.
Qed.

(** A return from inside the loop singles out the first matching entry. *)
Lemma loop_inl family addresses ip r :
  loop family addresses ip = inl r ->
  exists pre a post m,
    addresses = pre ++ a :: post /\
    Forall (fun x => matches family x = false) pre /\
    entryIP conv a = Some m /\
    ipMatchesFamily F4 F6 m family = true /\
    r = Unmap m.
Proof.
  revert ip. induction addresses as [|a rest IH]; intros ip H; [discriminate |].
  destruct (matches family a) eqn:Ea.
  - unfold entryMatches in Ea. destruct (entryIP conv a) as [m|] eqn:Em; [|discriminate].
    rewrite (loop_hit family a rest ip m Em Ea) in H. injection H as <-.
    exists [], a, rest, m. repeat split; auto.
  - assert (exists ip', loop family (a :: rest) ip = loop family rest ip') as [ip' E].
    { apply (loop_skip family [a] rest ip). constructor; auto. }
    rewrite E in H. destruct (IH ip' H) as (pre & b & post & m & -> & Hpre & Hb & Hm & ->).
    exists (a :: pre), b, post, m. repeat split; auto.
Qed.

(** The loop runs to its end exactly when no entry matches. *)
Lemma loop_inr family addresses ip :
  (exists ip', loop family addresses ip = inr ip') <->
  Forall (fun x => matches family x = false) addresses.
Proof.
  split.
  - revert ip. induction addresses as [|a rest IH]; intros ip [ip' H]; [constructor |].
    destruct (matches family a) eqn:Ea.
    + unfold entryMatches in Ea.
      destruct (entryIP conv a) as [m|] eqn:Em; [|discriminate].
      rewrite (loop_hit family a rest ip m Em Ea) in H. discriminate.
    + constructor; [exact Ea |].
      destruct (loop_skip family [a] rest ip) as [ip'' E]; [constructor; auto |].
      simpl in E. apply (IH ip''). exists ip'. rewrite <- E. exact H.
  - intros H. destruct (loop_skip family addresses [] ip H) as [ip' E].
    rewrite app_nil_r in E. exists ip'. rewrite E. reflexivity.
Qed.

End Loop.

(** C3. When the first entry of the interface that matches family V4
    carries a V4-mapped-V6 address, [assignedIP] for V4 succeeds with that
    address in bare V4 form: the same 128 bits under the V4 tag, which for
    ::ffff:a.b.c.d is the address [AddrFrom4] builds from a, b, c, d.
    Moreover no successful result, for any family, is V4-mapped-V6. *)
Theorem assignedIP_returns_bare_V4 (F4 F6 : Z) (conv : net.IP -> Addr) :
  (forall host name iface addresses pre a post m,
     net.InterfaceByName host name = net.Ok iface ->
     net.Addrs iface = net.Ok addresses ->
     addresses = pre ++ a :: post ->
     Forall (fun x => entryMatches F4 F6 conv F4 x = false) pre ->
     entryIP conv a = Some m ->
     Is4In6 m = true ->
     assignedIP F4 F6 conv host name F4 = (mkAddr (addr m) z4, None) /\
     Is4 (mkAddr (addr m) z4) = true /\
     (forall b1 b2 b3 b4, m = mapped b1 b2 b3 b4 ->
        assignedIP F4 F6 conv host name F4 = (AddrFrom4 b1 b2 b3 b4, None))) /\
  (forall host name family r,
     assignedIP F4 F6 conv host name family = (r, None) -> Is4In6 r = false).
Proof.
  split.
  - intros host name iface addresses pre a post m Hi Ha -> Hpre Hm H46.
    assert (assignedIP F4 F6 conv host name F4 = (mkAddr (addr m) z4, None)) as E.
    { unfold assignedIP. rewrite Hi, Ha.
      destruct (loop_skip F4 F6 conv F4 pre (a :: post) zero Hpre) as [ip' ->].
      rewrite (loop_hit F4 F6 conv F4 a post ip' m Hm (mapped_matches_V4 F4 F6 m H46)).
      rewrite (Unmap_mapped m H46). reflexivity. }
    split; [exact E |]. split; [reflexivity |].
    intros b1 b2 b3 b4 ->. exact E.
  - intros host name family r. unfold assignedIP.
    destruct (net.InterfaceByName host name) as [iface|err]; [|discriminate].
    destruct (net.Addrs iface) as [addresses|err]; [|discriminate].
    destruct (assignedIP_loop F4 F6 conv family addresses zero) as [found|ip] eqn:E;
      [|discriminate].
    intros H. injection H as <-.
    destruct (loop_inl F4 F6 conv family addresses zero found E)
      as (_ & _ & _ & m & _ & _ & _ & _ & ->).
    apply Unmap_not_Is4In6.
Qed.

End resolver_facts.

Module resolver_results.
Import errors netip routing family_facts resolver_facts.

(** The loop of [assignedIP], through the test it applies: on an
    interface that exists and whose addresses were listed, the call
    succeeds exactly with the first entry, in enumeration order, whose
    address [ipMatchesFamily] accepts, in its normalized form (the
    entry's own address unless it is V4-mapped-V6); it fails with the
    error wrapping [errInterfaceIPNotFound] if and only if
    [ipMatchesFamily] accepts no entry, and it fails in no other way. *)
Lemma assignedIP_first_matching (F4 F6 : Z) (conv : net.IP -> Addr)
    (host : net.Host) (name : string) (family : Z)
    (iface : net.Interface) (addresses : list net.Addr) :
  net.InterfaceByName host name = net.Ok iface ->
  net.Addrs iface = net.Ok addresses ->
  (forall r,
     assignedIP F4 F6 conv host name family = (r, None) <->
     exists pre a post m,
       addresses = pre ++ a :: post /\
       Forall (fun x => entryMatches F4 F6 conv family x = false) pre /\
       entryIP conv a = Some m /\
       ipMatchesFamily F4 F6 m family = true /\
       r = Unmap m /\ (Is4In6 m = false -> r = m)) /\
  ((exists ip, assignedIP F4 F6 conv host name family =
                 (ip, Some (NoMatchingAddress name (length addresses)))) <->
   Forall (fun x => entryMatches F4 F6 conv family x = false) addresses) /\
  (forall ip e,
     assignedIP F4 F6 conv host name family = (ip, Some e) ->
     e = NoMatchingAddress name (length addresses) /\
     Is e errInterfaceIPNotFound = true).
Proof.
  intros Hi Ha. unfold assignedIP. rewrite Hi, Ha.
  split; [|split].
  - intros r. split.
    + destruct (assignedIP_loop F4 F6 conv family addresses zero) as [found|ip] eqn:E;
        [|discriminate].
      intros H. injection H as <-.
      destruct (loop_inl F4 F6 conv family addresses zero found E)
        as (pre & a & post & m & -> & Hpre & Hm & Hf & ->).
      exists pre, a, post, m. repeat split; auto. apply Unmap_id.
    + intros (pre & a & post & m & -> & Hpre & Hm & Hf & -> & _).
      destruct (loop_skip F4 F6 conv family pre (a :: post) zero Hpre) as [ip' ->].
      rewrite (loop_hit F4 F6 conv family a post ip' m Hm Hf). reflexivity.
  - rewrite <- (loop_inr F4 F6 conv family addresses zero).
    destruct (assignedIP_loop F4 F6 conv family addresses zero) as [found|ip].
    + split; intros [ip' H]; discriminate.
    + split; intros _; eexists; reflexivity.
  - intros ip e.
    destruct (assignedIP_loop F4 F6 conv family addresses zero) as [found|ip'];
      [discriminate |].
    intros H. injection H as _ <-. split; reflexivity.
Qed.

(** [ipMatchesFamily] against the family test of the specification:
    the two differ on the addresses in V4-mapped-V6 form, which the code
    accepts for family V6 as well. *)
Lemma ipMatchesFamily_MatchesFamily (F4 F6 : Z) (ip : Addr) (family : Z) :
  ipMatchesFamily F4 F6 ip family =
  specification.MatchesFamily F4 F6 ip family || ((family =? F6) && Is4In6 ip).
Proof.
  unfold ipMatchesFamily, specification.MatchesFamily, ranges.isV6, ranges.isV4.
  destruct (Is4In6 ip) eqn:E.
  - rewrite (Is4In6_Is6 ip E).
    destruct (family =? F6), (family =? F4), (Is4 ip); reflexivity.
  - destruct (family =? F6), (family =? F4), (Is4 ip), (Is6 ip); reflexivity.
Qed.

(** C4. A request for family V6 on an interface that lists the tunnel
    address 10.8.0.2 in V4-mapped-V6 form.  On tun3, which lists nothing
    else, no entry matches family V6, yet [assignedIP] succeeds and
    returns 10.8.0.2 where the error wrapping [errInterfaceIPNotFound]
    is due.  On tun2, which lists fe80::1 after it, the first entry that
    matches family V6 is fe80::1, yet [assignedIP] returns 10.8.0.2.
    Both come from the V6 branch of [ipMatchesFamily], which accepts the
    mapped form. *)
Theorem assignedIP_V6_selects_mapped_V4 :
  specification.MatchesFamily samples.FAMILY_V4 samples.FAMILY_V6
    (samples.conv samples.tunnel) samples.FAMILY_V6 = false /\
  specification.MatchesFamily samples.FAMILY_V4 samples.FAMILY_V6
    (samples.conv samples.linkLocal) samples.FAMILY_V6 = true /\
  ipMatchesFamily samples.FAMILY_V4 samples.FAMILY_V6
    (samples.conv samples.tunnel) samples.FAMILY_V6 = true /\
  assignedIP samples.FAMILY_V4 samples.FAMILY_V6 samples.conv samples.host2
    "tun3" samples.FAMILY_V6 = (AddrFrom4 10 8 0 2, None) /\
  assignedIP samples.FAMILY_V4 samples.FAMILY_V6 samples.conv samples.host2
    "tun2" samples.FAMILY_V6 = (AddrFrom4 10 8 0 2, None) /\
  AddrFrom4 10 8 0 2 <> samples.conv samples.linkLocal.
Proof.
  repeat split; try reflexivity. discriminate.
Qed.

(** C5. On a name that no interface of the host has, [assignedIP]
    returns the zero address together with the interface-not-found error
    that wraps the error of the lookup; this error is neither the error
    of a failed address listing nor the one of a missing address. *)
Theorem assignedIP_interface_not_found (F4 F6 : Z) (conv : net.IP -> Addr)
    (host : net.Host) (name : string) (family : Z) (err : error) :
  net.InterfaceByName host name = net.Err err ->
  assignedIP F4 F6 conv host name family = (zero, Some (InterfaceNotFound name err)) /\
  (forall name' err', InterfaceNotFound name err <> AddressListFailed name' err') /\
  (forall name' n, InterfaceNotFound name err <> NoMatchingAddress name' n).
Proof.
  intros Hi. unfold assignedIP. rewrite Hi.
  split; [reflexivity |].
  split; intros; unfold InterfaceNotFound, AddressListFailed, NoMatchingAddress;
    simpl; intros H; discriminate H.
Qed.

(** C7, as the code has it. The error of every failing call of
    [assignedIP] is one of three, each naming the operation that failed
    (looking the interface up, listing its addresses, finding an address
    in the list), and its text contains the interface name.  The
    requested family is not part of it. *)
Theorem assignedIP_error_context (F4 F6 : Z) (conv : net.IP -> Addr)
    (host : net.Host) (name : string) (family : Z) (ip : Addr) (e : error) :
  assignedIP F4 F6 conv host name family = (ip, Some e) ->
  (exists before after, Error e = before +:+ name +:+ after) /\
  ((exists err,
      net.InterfaceByName host name = net.Err err /\
      e = InterfaceNotFound name err) \/
   (exists iface err,
      net.InterfaceByName host name = net.Ok iface /\
      net.Addrs iface = net.Err err /\
      e = AddressListFailed name err) \/
   (exists iface addresses,
      net.InterfaceByName host name = net.Ok iface /\
      net.Addrs iface = net.Ok addresses /\
      e = NoMatchingAddress name (length addresses))).
Proof.
  unfold assignedIP.
  destruct (net.InterfaceByName host name) as [iface|err] eqn:Hi.
  - destruct (net.Addrs iface) as [addresses|err] eqn:Ha.
    + destruct (assignedIP_loop F4 F6 conv family addresses zero) as [found|ip'];
        [discriminate |].
      intros H. injection H as _ <-. split.
      * exists "IP address not found for interface: interface ",
          (" in " +:+ pretty (length addresses) +:+ " addresses"). reflexivity.
      * right. right. exists iface, addresses. auto.
    + intros H. injection H as _ <-. split.
      * exists "listing interface ", (" addresses: " +:+ Error err). reflexivity.
      * right. left. exists iface, err. auto.
  - intros H. injection H as _ <-. split.
    + exists "network interface ", (" not found: " +:+ Error err). reflexivity.
    + left. exists err. auto.
Qed.

(** C7, as the specification has it, fails: no reading of the error
    gives the requested family back, since a failing call for V4 and one
    for V6 return the same error. *)
Lemma assignedIP_error_omits_family :
  ~ exists familyOf : error -> Z,
      forall host name family ip e,
        assignedIP samples.FAMILY_V4 samples.FAMILY_V6 samples.conv
                   host name family = (ip, Some e) ->
        familyOf e = family.
Proof.
  intros [familyOf H].
  pose proof (H samples.host "wg0" samples.FAMILY_V4 _ _ eq_refl) as H4.
  pose proof (H samples.host "wg0" samples.FAMILY_V6 _ _ eq_refl) as H6.
  rewrite H4 in H6. discriminate H6.
Qed.

End resolver_results.

Module resolver_witnesses.
Import errors netip routing resolver_facts resolver_results.
Import samples.

(** On the sample host, tun0 lists a socket entry, fe80::1 and
    ::ffff:10.8.0.2: the resolver answers 10.8.0.2 for V4. *)
Lemma assignedIP_returns_bare_V4_witness :
  assignedIP FAMILY_V4 FAMILY_V6 conv host "tun0" FAMILY_V4 =
    (AddrFrom4 10 8 0 2, None).
Proof.
  destruct (assignedIP_returns_bare_V4 FAMILY_V4 FAMILY_V6 conv) as [H _].
  destruct (H host "tun0" tun0 tun0Addrs
              [net.OtherAddr "unix" "/run/sock";
               net.IPNet linkLocal [255; 255; 255; 255; 255; 255; 255; 255; 0; 0; 0; 0; 0; 0; 0; 0]]
              (net.IPNet tunnel [255; 255; 255; 0]) [] (conv tunnel)
              eq_refl eq_refl eq_refl) as (_ & _ & H3).
  - repeat constructor.
  - reflexivity.
  - reflexivity.
  - exact (H3 10 8 0 2 eq_refl).
Defined.

Lemma assignedIP_interface_not_found_witness :
  assignedIP FAMILY_V4 FAMILY_V6 conv host "wg0" FAMILY_V6 =
    (zero, Some (InterfaceNotFound "wg0" noSuchInterface)) /\
  (forall name' err', InterfaceNotFound "wg0" noSuchInterface <> AddressListFailed name' err') /\
  (forall name' n, InterfaceNotFound "wg0" noSuchInterface <> NoMatchingAddress name' n).
Proof.
  exact (assignedIP_interface_not_found FAMILY_V4 FAMILY_V6 conv host "wg0" FAMILY_V6
           noSuchInterface eq_refl).
Defined.

Lemma assignedIP_error_context_witness :
  (exists before after,
     Error (NoMatchingAddress "tun1" 1) = before +:+ "tun1" +:+ after) /\
  ((exists err,
      net.InterfaceByName host "tun1" = net.Err err /\
      NoMatchingAddress "tun1" 1 = InterfaceNotFound "tun1" err) \/
   (exists iface err,
      net.InterfaceByName host "tun1" = net.Ok iface /\
      net.Addrs iface = net.Err err /\
      NoMatchingAddress "tun1" 1 = AddressListFailed "tun1" err) \/
   (exists iface addresses,
      net.InterfaceByName host "tun1" = net.Ok iface /\
      net.Addrs iface = net.Ok addresses /\
      NoMatchingAddress "tun1" 1 = NoMatchingAddress "tun1" (length addresses))).
Proof.
  exact (assignedIP_error_context FAMILY_V4 FAMILY_V6 conv host "tun1" FAMILY_V4
           (conv linkLocal) (NoMatchingAddress "tun1" 1) eq_refl).
Defined.

(** tun1 has no V4 address yet: the call fails, and the address returned
    next to the error is the last one the loop converted, fe80::1. *)
Example assignedIP_tun1_V4 :
  assignedIP FAMILY_V4 FAMILY_V6 conv host "tun1" FAMILY_V4 =
    (conv linkLocal,
     Some (Errorf "IP address not found for interface: interface tun1 in 1 addresses"
                  errInterfaceIPNotFound)).
Proof. vm_compute. reflexivity. Qed.

(** For V6, tun0 answers fe80::1, its first 16-byte address. *)
Example assignedIP_tun0_V6 :
  assignedIP FAMILY_V4 FAMILY_V6 conv host "tun0" FAMILY_V6 = (conv linkLocal, None).
Proof. vm_compute. reflexivity. Qed.

End resolver_witnesses.

(** ** Addresses excluded from the tunnel *)

Module excluded_facts.
Import netip ranges routing.

Lemma forall_below (P : Z -> bool) (n : Z) :
  forallb P (seqZ 0 n) = true -> forall x, 0 <= x < n -> P x = true.
Proof.
  intros H x Hx. rewrite forallb_forall in H. apply H.
  apply list_elem_of_In, elem_of_seqZ. lia.
Qed.

Lemma forall_below2 (P : Z -> bool) :
  forallb (fun h => forallb (fun l => P (256 * h + l)) (seqZ 0 256)) (seqZ 0 256) = true ->
  forall x, 0 <= x < 65536 -> P x = true.
Proof.
  intros H x Hx.
  pose proof (forall_below _ _ H (x / 256) ltac:(Z.div_mod_to_equations; lia)) as H1.
  pose proof (forall_below _ _ H1 (x mod 256) ltac:(Z.div_mod_to_equations; lia)) as H2.
  simpl in H2. rewrite <- Z.div_mod in H2 by lia. exact H2.
Qed.

(** The masks of the library, as ranges. *)
Lemma mask_f0_check :
  forallb (fun x => Bool.eqb (Z.land x 240 =? 16) ((16 <=? x) && (x <? 32))) (seqZ 0 256) = true.
Proof. vm_compute. reflexivity. Qed.

Lemma mask_f0 (b : Z) : 0 <= b < 256 ->
  (Z.land b 240 =? 16) = (16 <=? b) && (b <? 32).
Proof.
  intros H. apply Bool.eqb_prop.
  exact (forall_below _ _ mask_f0_check _ H).
Qed.

Lemma mask_fe_check :
  forallb (fun x => Bool.eqb (Z.land x 254 =? 252) ((252 <=? x) && (x <? 254))) (seqZ 0 256) = true.
Proof. vm_compute. reflexivity. Qed.

Lemma mask_fe (b : Z) : 0 <= b < 256 ->
  (Z.land b 254 =? 252) = (252 <=? b) && (b <? 254).
Proof.
  intros H. apply Bool.eqb_prop.
  exact (forall_below _ _ mask_fe_check _ H).
Qed.

Lemma mask_ffc0_check :
  forallb (fun h => forallb (fun l => (fun x => Bool.eqb (Z.land x 65472 =? 65152) ((65152 <=? x) && (x <? 65216))) (256 * h + l))
                            (seqZ 0 256)) (seqZ 0 256) = true.
Proof. vm_compute. reflexivity. Qed.

Lemma mask_ffc0 (g : Z) : 0 <= g < 65536 ->
  (Z.land g 65472 =? 65152) = (65152 <=? g) && (g <? 65216).
Proof.
  intros H. apply Bool.eqb_prop.
  exact (forall_below2 _ mask_ffc0_check _ H).
Qed.

Lemma mask_ff0f_check :
  forallb (fun h => forallb (fun l => (fun x => Bool.eqb (Z.land x 65295 =? 65282) ((x / 256 =? 255) && (x mod 16 =? 2))) (256 * h + l))
                            (seqZ 0 256)) (seqZ 0 256) = true.
Proof. vm_compute. reflexivity. Qed.

Lemma mask_ff0f (g : Z) : 0 <= g < 65536 ->
  (Z.land g 65295 =? 65282) = (g / 256 =? 255) && (g mod 16 =? 2).
Proof.
  intros H. apply Bool.eqb_prop.
  exact (forall_below2 _ mask_ff0f_check _ H).
Qed.

(** The bytes and groups the predicates look at, by division. *)
Lemma uint8_mod (x : Z) : uint8 x = x mod 256.
Proof. unfold uint8. change 255 with (Z.ones 8). apply Z.land_ones. lia. Qed.

Lemma uint16_mod (x : Z) : uint16 x = x mod 65536.
Proof. unfold uint16. change 65535 with (Z.ones 16). apply Z.land_ones. lia. Qed.

Lemma v4_0 ip : v4 ip 0 = (lo (addr ip) / 16777216) mod 256.
Proof.
  unfold v4. rewrite uint8_mod. change ((3 - 0) * 8) with 24.
  rewrite Z.shiftr_div_pow2 by lia. reflexivity.
Qed.

Lemma v4_1 ip : v4 ip 1 = (lo (addr ip) / 65536) mod 256.
Proof.
  unfold v4. rewrite uint8_mod. change ((3 - 1) * 8) with 16.
  rewrite Z.shiftr_div_pow2 by lia. reflexivity.
Qed.

Lemma v4_2 ip : v4 ip 2 = (lo (addr ip) / 256) mod 256.
Proof.
  unfold v4. rewrite uint8_mod. change ((3 - 2) * 8) with 8.
  rewrite Z.shiftr_div_pow2 by lia. reflexivity.
Qed.

Lemma v6_0 ip : v6 ip 0 = (hi (addr ip) / 72057594037927936) mod 256.
Proof.
  unfold v6. rewrite uint8_mod.
  change (halves (addr ip) (0 / 8 mod 2)) with (hi (addr ip)).
  change ((7 - 0 mod 8) * 8) with 56.
  rewrite Z.shiftr_div_pow2 by lia. reflexivity.
Qed.

Lemma v6u16_0 ip : v6u16 ip 0 = (hi (addr ip) / 281474976710656) mod 65536.
Proof.
  unfold v6u16. rewrite uint16_mod.
  change (halves (addr ip) (0 / 4 mod 2)) with (hi (addr ip)).
  change ((3 - 0 mod 4) * 16) with 48.
  rewrite Z.shiftr_div_pow2 by lia. reflexivity.
Qed.

Ltac byte_bounds :=
  repeat match goal with
  | |- context [?x mod 256] =>
      lazymatch goal with
      | _ : 0 <= x mod 256 < 256 |- _ => fail
      | _ => pose proof (Z.mod_pos_bound x 256 ltac:(lia))
      end
  | |- context [?x mod 65536] =>
      lazymatch goal with
      | _ : 0 <= x mod 65536 < 65536 |- _ => fail
      | _ => pose proof (Z.mod_pos_bound x 65536 ltac:(lia))
      end
  end.

Ltac to_props :=
  rewrite ?orb_true_iff, ?andb_true_iff, ?Z.eqb_eq, ?Z.leb_le, ?Z.ltb_lt.

Ltac unfold_valid H :=
  unfold valid in H; destruct H as (Hhi & Hlo & Hz);
  rewrite ?Z.shiftr_div_pow2 in Hz by lia;
  change (2 ^ 64) with 18446744073709551616 in *;
  change (2 ^ 32) with 4294967296 in *.

Ltac unfold_ranges :=
  unfold inBlock, value4, value6, ipv4, ipv6;
  repeat match goal with
  | |- context [2 ^ ?n] =>
      let v := eval vm_compute in (2 ^ n) in change (2 ^ n) with v
  end.

(** An address that is not in V4-mapped-V6 form is a V4 address exactly
    when it is in 4-byte form, and a V6 address exactly when it is in
    16-byte form. *)
Ltac own_form Hm :=
  unfold isV4, isV6; rewrite Hm, orb_false_r; simpl negb; rewrite andb_true_r.

Lemma IsPrivate_iff ip :
  valid ip -> Is4In6 ip = false -> IsPrivate ip = true <-> PrivateUse ip.
Proof.
  intros H Hm. unfold PrivateUse. own_form Hm. unfold IsPrivate, Is4, Is6.
  destruct (z ip) eqn:Ez; unfold_valid H.
  - split; [discriminate | intros [[? _]|[? _]]; discriminate].
  - rewrite v4_0, v4_1. byte_bounds. rewrite mask_f0 by lia.
    to_props. unfold_ranges.
    split.
    + intros G. left. split; [reflexivity |]. Z.div_mod_to_equations. lia.
    + intros [[_ G]|[G _]]; [|discriminate]. Z.div_mod_to_equations. lia.
  - rewrite v6_0. byte_bounds. rewrite mask_fe by lia. simpl andb.
    to_props. unfold_ranges.
    split.
    + intros G. right. split; [reflexivity |]. Z.div_mod_to_equations. lia.
    + intros [[G _]|[_ G]]; [discriminate |]. Z.div_mod_to_equations. lia.
  - rewrite v6_0. byte_bounds. rewrite mask_fe by lia. simpl andb.
    to_props. unfold_ranges.
    split.
    + intros G. right. split; [reflexivity |]. Z.div_mod_to_equations. lia.
    + intros [[G _]|[_ G]]; [discriminate |]. Z.div_mod_to_equations. lia.
Qed.


Lemma IsLoopback_iff ip :
  valid ip -> Is4In6 ip = false -> IsLoopback ip = true <-> Loopback ip.
Proof.
  intros H Hm. unfold Loopback. own_form Hm. unfold IsLoopback, Is4, Is6.
  destruct (z ip) eqn:Ez; unfold_valid H.
  - split; [discriminate | intros [[? _]|[? _]]; discriminate].
  - rewrite v4_0. to_props. unfold_ranges.
    split.
    + intros G. left. split; [reflexivity |]. Z.div_mod_to_equations. lia.
    + intros [[_ G]|[G _]]; [|discriminate]. Z.div_mod_to_equations. lia.
  - to_props. unfold_ranges.
    split.
    + intros G. right. split; [reflexivity |]. lia.
    + intros [[G _]|[_ G]]; [discriminate |]. lia.
  - to_props. unfold_ranges.
    split.
    + intros G. right. split; [reflexivity |]. lia.
    + intros [[G _]|[_ G]]; [discriminate |]. lia.
Qed.

Lemma IsLinkLocalUnicast_iff ip :
  valid ip -> Is4In6 ip = false ->
  IsLinkLocalUnicast ip = true <-> LinkLocalUnicast ip.
Proof.
  intros H Hm. unfold LinkLocalUnicast. own_form Hm.
  unfold IsLinkLocalUnicast, Is4, Is6.
  destruct (z ip) eqn:Ez; unfold_valid H.
  - split; [discriminate | intros [[? _]|[? _]]; discriminate].
  - rewrite v4_0, v4_1. to_props. unfold_ranges.
    split.
    + intros G. left. split; [reflexivity |]. Z.div_mod_to_equations. lia.
    + intros [[_ G]|[G _]]; [|discriminate]. Z.div_mod_to_equations. lia.
  - rewrite v6u16_0. byte_bounds. rewrite mask_ffc0 by lia.
    to_props. unfold_ranges.
    split.
    + intros G. right. split; [reflexivity |]. Z.div_mod_to_equations. lia.
    + intros [[G _]|[_ G]]; [discriminate |]. Z.div_mod_to_equations. lia.
  - rewrite v6u16_0. byte_bounds. rewrite mask_ffc0 by lia.
    to_props. unfold_ranges.
    split.
    + intros G. right. split; [reflexivity |]. Z.div_mod_to_equations. lia.
    + intros [[G _]|[_ G]]; [discriminate |]. Z.div_mod_to_equations. lia.
Qed.

(** The first group of an IPv6 address has the multicast byte and the
    link-local scope exactly when the address lies in ffx2::/16 for the
    value x of its flags. *)
Lemma scope2_iff (h l : Z) :
  0 <= h < 18446744073709551616 -> 0 <= l < 18446744073709551616 ->
  let g := (h / 281474976710656) mod 65536 in
  (g / 256 = 255 /\ g mod 16 = 2) <->
  exists flags, 0 <= flags < 16 /\
    inBlock 128 (ipv6 (65282 + 16 * flags)) 16 (h * 2 ^ 64 + l).
Proof.
  intros Hh Hl g. subst g. unfold_ranges. split.
  - intros G. exists (((h / 281474976710656) mod 65536) / 16 mod 16).
    Z.div_mod_to_equations. lia.
  - intros (flags & Hf & G). Z.div_mod_to_equations. lia.
Qed.

Lemma IsLinkLocalMulticast_iff ip :
  valid ip -> Is4In6 ip = false ->
  IsLinkLocalMulticast ip = true <-> LinkLocalMulticast ip.
Proof.
  intros H Hm. unfold LinkLocalMulticast. own_form Hm.
  unfold IsLinkLocalMulticast, Is4, Is6.
  destruct (z ip) eqn:Ez; unfold_valid H.
  - split; [discriminate | intros [[? _]|[? _]]; discriminate].
  - rewrite v4_0, v4_1, v4_2. to_props. unfold_ranges.
    split.
    + intros G. left. split; [reflexivity |]. Z.div_mod_to_equations. lia.
    + intros [[_ G]|[G _]]; [|discriminate]. Z.div_mod_to_equations. lia.
  - rewrite v6u16_0. byte_bounds. rewrite mask_ff0f by lia.
    to_props. rewrite (scope2_iff _ _ Hhi Hlo). unfold value6.
    split; [intros G; right; split; [reflexivity | exact G]
           | intros [[G _]|[_ G]]; [discriminate | exact G]].
  - rewrite v6u16_0. byte_bounds. rewrite mask_ff0f by lia.
    to_props. rewrite (scope2_iff _ _ Hhi Hlo). unfold value6.
    split; [intros G; right; split; [reflexivity | exact G]
           | intros [[G _]|[_ G]]; [discriminate | exact G]].
Qed.

(** On an address that is not in V4-mapped-V6 form, [IPIsPrivate] answers
    true exactly when the address is private-use, loopback, link-local
    unicast or link-local multicast. *)
Lemma IPIsPrivate_own_form (ip : Addr) :
  valid ip -> Is4In6 ip = false -> IPIsPrivate ip = true <-> Excluded ip.
Proof.
  intros H Hm. unfold IPIsPrivate, Excluded. rewrite !orb_true_iff.
  rewrite (IsPrivate_iff ip H Hm), (IsLoopback_iff ip H Hm),
    (IsLinkLocalUnicast_iff ip H Hm), (IsLinkLocalMulticast_iff ip H Hm). tauto.
Qed.

(** On every address in V4-mapped-V6 form, [IPIsPrivate] answers false:
    the four predicates of the library look at the address as the
    16-byte address it is, whose first ten bytes are zero. *)
Lemma IPIsPrivate_mapped (ip : Addr) :
  Is4In6 ip = true -> IPIsPrivate ip = false.
Proof.
  unfold Is4In6. rewrite !andb_true_iff, !Z.eqb_eq. intros [[H6 Hhi] Hlo].
  assert (Is4 ip = false) as H4.
  { unfold Is4, Is6 in *. destruct (z ip); congruence. }
  unfold IPIsPrivate, IsPrivate, IsLoopback, IsLinkLocalUnicast, IsLinkLocalMulticast.
  rewrite H4, H6. unfold v6, v6u16.
  change (halves (addr ip) (0 / 8 mod 2)) with (hi (addr ip)).
  change (halves (addr ip) (0 / 4 mod 2)) with (hi (addr ip)).
  rewrite Hhi. simpl.
  destruct (lo (addr ip) =? 1) eqn:E; [|reflexivity].
  apply Z.eqb_eq in E. rewrite E in Hlo. discriminate Hlo.
Qed.

(** C2. [IPIsPrivate] answers false on ::ffff:192.168.1.5, the
    V4-mapped-V6 form of the private-use address 192.168.1.5 (RFC 1918),
    which is excluded from the tunnel, while it answers true on the bare
    form of the same address: it asks the four predicates of the library
    about the address in the form it is given in, without the [Unmap]
    that [assignedIP] applies. *)
Theorem IPIsPrivate_misses_mapped_V4 :
  Is4In6 (mapped 192 168 1 5) = true /\
  Unmap (mapped 192 168 1 5) = AddrFrom4 192 168 1 5 /\
  Excluded (mapped 192 168 1 5) /\
  IPIsPrivate (mapped 192 168 1 5) = false /\
  IPIsPrivate (AddrFrom4 192 168 1 5) = true.
Proof.
  split; [reflexivity |]. split; [reflexivity |]. split; [|split; reflexivity].
  left. left. split; [reflexivity |]. right. right.
  unfold inBlock, value4, ipv4. vm_compute.
  split; [intros X; discriminate X | reflexivity].
Qed.

(** 8.8.8.8 and 2001:4860:4860::8888 go through the tunnel; fe80::1,
    ::1 and 224.0.0.251 do not. *)
Example IPIsPrivate_public_v4 : IPIsPrivate (AddrFrom4 8 8 8 8) = false.
Proof. reflexivity. Qed.

Example IPIsPrivate_public_v6 :
  IPIsPrivate (AddrFrom16 [32; 1; 72; 96; 72; 96; 0; 0; 0; 0; 0; 0; 0; 0; 136; 136]) = false.
Proof. reflexivity. Qed.

Example IPIsPrivate_link_local_v6 : IPIsPrivate (samples.conv samples.linkLocal) = true.
Proof. reflexivity. Qed.

Example IPIsPrivate_loopback_v6 :
  IPIsPrivate (AddrFrom16 [0; 0; 0; 0; 0; 0; 0; 0; 0; 0; 0; 0; 0; 0; 0; 1]) = true.
Proof. reflexivity. Qed.

Example IPIsPrivate_mdns_v4 : IPIsPrivate (AddrFrom4 224 0 0 251) = true.
Proof. reflexivity. Qed.

End excluded_facts.

(** ** Validation of the OpenVPN settings *)

Module validate_facts.
Import errors mem settings basics.

(** C6. When the checks before it pass, the verbosity check of
    [validate] accepts exactly the values from 0 to 6 and returns the
    out-of-bounds error exactly for the values below 0 or above 6; the
    text of that error ends with the bounds 0 and 5. *)
Theorem validate_verbosity_bounds (X : Externals) (o : OpenVPN) (h : heap)
    (vpnProvider : string) (verbosity : Z) :
  validateBeforeVerbosity X o h vpnProvider = Some None ->
  loadInt h (Verbosity o) = Some verbosity ->
  (validate X o h vpnProvider = Some None <-> 0 <= verbosity <= 6) /\
  (validate X o h vpnProvider = Some (Some (verbosityError X o)) <->
   verbosity < 0 \/ 6 < verbosity) /\
  Is (verbosityError X o) (ErrOpenVPNVerbosityIsOutOfBounds X) = true /\
  (exists before,
     Error (verbosityError X o) = before +:+ " can only be between 0 and 5").
Proof.
  intros Hb Hv.
  assert (validate X o h vpnProvider =
          if (verbosity <? 0) || (verbosity >? 6)
          then Some (Some (verbosityError X o)) else Some None) as ->.
  { unfold validate. rewrite Hb. simpl. rewrite Hv. reflexivity. }
  rewrite Z.gtb_ltb.
  split; [|split; [|split]].
  - destruct (Z.ltb_spec verbosity 0), (Z.ltb_spec 6 verbosity); simpl;
      split; intros G; try discriminate G; try reflexivity; lia.
  - destruct (Z.ltb_spec verbosity 0), (Z.ltb_spec 6 verbosity); simpl;
      split; intros G; try discriminate G; try reflexivity; lia.
  - apply Is_Errorf.
  - exists (Error (ErrOpenVPNVerbosityIsOutOfBounds X) +:+ ": " +:+
            fmtPointer (Verbosity o)).
    unfold verbosityError, Error at 1.
    rewrite !append_assoc. reflexivity.
Qed.

(** The sample settings pass the earlier checks for Mullvad and have
    verbosity 1. *)
Lemma validate_verbosity_bounds_witness :
  (validate samples.externals samples.openvpn samples.heap0 "mullvad" = Some None <->
   0 <= 1 <= 6) /\
  (validate samples.externals samples.openvpn samples.heap0 "mullvad" =
     Some (Some (verbosityError samples.externals samples.openvpn)) <->
   1 < 0 \/ 6 < 1) /\
  Is (verbosityError samples.externals samples.openvpn)
     (ErrOpenVPNVerbosityIsOutOfBounds samples.externals) = true /\
  (exists before,
     Error (verbosityError samples.externals samples.openvpn) =
       before +:+ " can only be between 0 and 5").
Proof.
  apply (validate_verbosity_bounds samples.externals samples.openvpn samples.heap0
           "mullvad" 1); vm_compute; reflexivity.
Defined.

(** Verbosity 6 passes and verbosity 7 does not; the text of the error
    names the bounds 0 and 5 and shows the address of the cell, not the
    value. *)
Example validate_verbosity_6 :
  validate samples.externals samples.openvpn
           (<[11%positive := VInt 6]> samples.heap0) "mullvad" = Some None.
Proof. vm_compute. reflexivity. Qed.

Example validate_verbosity_7 :
  validate samples.externals samples.openvpn
           (<[11%positive := VInt 7]> samples.heap0) "mullvad" =
  Some (Some (Errorf "verbosity value is out of bounds: 11 can only be between 0 and 5"
                     (New "verbosity value is out of bounds"))).
Proof. vm_compute. reflexivity. Qed.

End validate_facts.

(** ** Copies of the OpenVPN settings *)

Module copy_facts.
Import errors mem settings.

(** Reading through an allocated pointer gives the same in a larger heap. *)
Lemma load_weaken (h hf : heap) (p : ptr) :
  allocated h p -> h ⊆ hf -> load hf p = load h p.
Proof.
  destruct p as [l|]; simpl; [|reflexivity].
  intros [v Hv] Hsub. rewrite Hv. exact (lookup_weaken _ _ _ _ Hv Hsub).
Qed.

Lemma elems_weaken (h hf : heap) (s : slice) :
  inBounds h s -> h ⊆ hf -> elems hf s = elems h s.
Proof.
  unfold inBounds, elems. destruct (array s) as [l|]; [|reflexivity].
  intros (xs & Hxs & _) Hsub.
  rewrite Hxs, (lookup_weaken _ _ _ _ Hxs Hsub). reflexivity.
Qed.

Lemma inBounds_weaken (h hf : heap) (s : slice) :
  inBounds h s -> h ⊆ hf -> inBounds hf s.
Proof.
  unfold inBounds. destruct (array s) as [l|]; [|auto].
  intros (xs & Hxs & Hb) Hsub. exists xs. split; [|exact Hb].
  exact (lookup_weaken _ _ _ _ Hxs Hsub).
Qed.

Lemma freshIn_weaken (h hf : heap) (p : ptr) :
  freshIn hf p -> h ⊆ hf -> freshIn h p.
Proof.
  destruct p as [l|]; simpl; [|auto].
  intros Hf Hsub. exact (lookup_weaken_None _ _ _ Hf Hsub).
Qed.

(** The settings read the same in every heap that extends theirs. *)
Lemma view_weaken (h hf : heap) (o : OpenVPN) :
  wellFormed h o -> h ⊆ hf -> view hf o = view h o.
Proof.
  intros [Hp Hs] Hsub. unfold view. f_equal; [f_equal |].
  - apply list_eq_Forall2. apply Forall2_fmap, Forall_Forall2_diag.
    eapply Forall_impl; [exact Hp |]. intros p Ha. apply load_weaken; auto.
  - apply list_eq_Forall2. apply Forall2_fmap, Forall_Forall2_diag.
    eapply Forall_impl; [exact Hs |]. intros s Hb. simpl.
    rewrite (elems_weaken h hf s Hb Hsub). reflexivity.
Qed.

Section Steps.
Variable CopyPointer : ptr -> heap -> ptr * heap.
Variable CopySlice : slice -> heap -> slice * heap.
Hypothesis CopyPointer_ok : CopyPointerContract CopyPointer.
Hypothesis CopySlice_ok : CopySliceContract CopySlice.

(** One call of [CopyPointer] in a heap [hi] that extends [h]. *)
Lemma CopyPointer_step (h hi : heap) (p : ptr) :
  h ⊆ hi -> allocated h p ->
  exists p' hi',
    CopyPointer p hi = (p', hi') /\ hi ⊆ hi' /\ freshIn h p' /\
    (forall hf, hi' ⊆ hf -> load hf p' = load h p).
Proof.
  intros Hsub Ha. destruct CopyPointer_ok as [Hnil Hcopy].
  destruct p as [l|].
  - destruct Ha as [v Hv].
    destruct (Hcopy hi l v (lookup_weaken _ _ _ _ Hv Hsub)) as (l' & Hl' & E).
    exists (Some l'), (<[l' := v]> hi). split; [exact E |].
    split; [apply insert_subseteq; exact Hl' |].
    split; [exact (lookup_weaken_None _ _ _ Hl' Hsub) |].
    intros hf Hf. simpl. rewrite Hv.
    apply (lookup_weaken _ _ _ _ (lookup_insert_eq hi l' v) Hf).
  - exists None, hi. split; [apply Hnil |]. split; [reflexivity |].
    split; [exact I |]. reflexivity.
Qed.

(** One call of [CopySlice] in a heap [hi] that extends [h]. *)
Lemma CopySlice_step (h hi : heap) (s : slice) :
  h ⊆ hi -> inBounds h s ->
  exists s' hi',
    CopySlice s hi = (s', hi') /\ hi ⊆ hi' /\ freshIn h (array s') /\
    (forall hf, hi' ⊆ hf ->
       (bool_decide (array s' = None), elems hf s') =
       (bool_decide (array s = None), elems h s)).
Proof.
  intros Hsub Hb. destruct CopySlice_ok as [Hnil Hcopy].
  destruct (array s) as [l|] eqn:El.
  - destruct (Hcopy hi s) as (l' & Hl' & E).
    { rewrite El. discriminate. }
    { apply (inBounds_weaken h hi s Hb Hsub). }
    exists (mkSlice (Some l') 0 (len s) (len s)), (<[l' := VArray (elems hi s)]> hi).
    split; [exact E |].
    split; [apply insert_subseteq; exact Hl' |].
    split; [exact (lookup_weaken_None _ _ _ Hl' Hsub) |].
    intros hf Hf. f_equal. unfold elems at 1. simpl.
    rewrite (lookup_weaken _ _ _ _ (lookup_insert_eq hi l' _) Hf).
    rewrite (elems_weaken h hi s Hb Hsub). rewrite drop_0.
    apply take_ge. unfold elems. rewrite El.
    destruct (h !! l) as [[| | |xs]|]; simpl; try lia.
    rewrite length_take. lia.
  - exists nilSlice, hi. split; [apply Hnil; exact El |].
    split; [reflexivity |]. split; [exact I |].
    intros hf _. unfold elems. rewrite El. reflexivity.
Qed.

End Steps.


Ltac sub := solve [reflexivity | eassumption | (etrans; [eassumption | sub])].

(** Runs the next helper call of [E] through its step lemma. *)
Ltac next_step lem h Hal E :=
  lazymatch type of Hal with
  | _ _ ?p =>
      match type of E with
      | context [?f p ?hc] =>
          let Hsub := fresh "Hsub" in
          assert (h ⊆ hc) as Hsub by sub;
          let p' := fresh "p'" in
          let hn := fresh "hn" in
          let Ec := fresh "Ec" in
          let S := fresh "S" in
          let F := fresh "F" in
          let L := fresh "L" in
          destruct (lem h hc p Hsub Hal) as (p' & hn & Ec & S & F & L);
          rewrite Ec in E; clear Ec Hsub; cbv beta iota zeta in E
      end
  end.

Section Copy.
Variable CopyPointer : ptr -> heap -> ptr * heap.
Variable CopySlice : slice -> heap -> slice * heap.
Hypothesis CopyPointer_ok : CopyPointerContract CopyPointer.
Hypothesis CopySlice_ok : CopySliceContract CopySlice.

(** What [copy] does to the heap and what it returns: the heap grows,
    the copy reads as the original did, and every cell of the copy is
    new. *)
Lemma copy_spec (o : OpenVPN) (h : heap) (c : OpenVPN) (h' : heap) :
  wellFormed h o ->
  copy CopyPointer CopySlice o h = (c, h') ->
  h ⊆ h' /\ view h' c = view h o /\ Forall (freshIn h) (cells c).
Proof.
  intros [Hp Hs] E. unfold copy in E.
  unfold pointerFields in Hp. unfold sliceFields in Hs.
  repeat match goal with
  | H : Forall _ (_ :: _) |- _ =>
      let Hx := fresh "Hx" in apply Forall_cons in H as [Hx H]
  end.
  clear Hp Hs.
  pose (stepP := CopyPointer_step CopyPointer CopyPointer_ok).
  pose (stepS := CopySlice_step CopySlice CopySlice_ok).
  repeat match goal with
  | Hal : allocated h _ |- _ => next_step stepP h Hal E; clear Hal
  | Hal : inBounds h _ |- _ => next_step stepS h Hal E; clear Hal
  end.
  match type of E with
  | (_, ?hfin) = _ =>
      repeat match goal with
      | L : forall hf, _ ⊆ hf -> _ |- _ => specialize (L hfin ltac:(sub))
      end
  end.
  injection E as <- <-.
  split; [sub |]. split.
  - unfold view, pointerFields, sliceFields. simpl.
    repeat match goal with
    | L : _ = _ |- _ => rewrite L; clear L
    end.
    reflexivity.
  - unfold cells, pointerFields, sliceFields. simpl.
    repeat (constructor; [assumption |]). constructor.
Qed.

(** C8. For helpers that copy as their names say, [copy] returns
    settings that read field by field as the original does (the three
    strings, what each of the eleven pointers points to, the elements of
    the two slices and whether they are nil), and storing any value in
    any cell the copy points to leaves every field of the original as it
    was. *)
Theorem copy_equal_and_independent (o : OpenVPN) (h : heap)
    (c : OpenVPN) (h' : heap) :
  wellFormed h o ->
  copy CopyPointer CopySlice o h = (c, h') ->
  view h' c = view h o /\
  view h' o = view h o /\
  (forall l w, Some l ∈ cells c -> view (<[l := w]> h') o = view h o).
Proof.
  intros Hwf E. destruct (copy_spec o h c h' Hwf E) as (Hsub & Hview & Hfresh).
  split; [exact Hview |]. split; [exact (view_weaken h h' o Hwf Hsub) |].
  intros l w Hl. apply (view_weaken h _ o Hwf).
  rewrite Forall_forall in Hfresh. specialize (Hfresh (Some l) Hl). simpl in Hfresh.
  apply insert_subseteq_r; assumption.
Qed.

End Copy.

(** The reference helpers meet their contracts. *)
Lemma new_fresh (h : heap) : h !! reference.new h = None.
Proof. apply not_elem_of_dom. unfold reference.new. apply is_fresh. Qed.

Lemma reference_CopyPointer_ok : CopyPointerContract reference.CopyPointer.
Proof.
  split.
  - reflexivity.
  - intros h l v Hv. exists (reference.new h). split; [apply new_fresh |].
    unfold reference.CopyPointer. rewrite Hv. reflexivity.
Qed.

Lemma reference_CopySlice_ok : CopySliceContract reference.CopySlice.
Proof.
  split.
  - intros h s Hs. unfold reference.CopySlice. rewrite Hs. reflexivity.
  - intros h s Hs _. exists (reference.new h). split; [apply new_fresh |].
    unfold reference.CopySlice. destruct (array s); [reflexivity | congruence].
Qed.

Lemma samples_openvpn_wellFormed : wellFormed samples.heap0 samples.openvpn.
Proof.
  split.
  - unfold pointerFields. repeat constructor; simpl; eexists; vm_compute; reflexivity.
  - unfold sliceFields. repeat constructor.
    exists ["aes-256-gcm"; "aes-128-gcm"; "aes-256-cbc"]%string.
    split; [vm_compute; reflexivity | simpl; lia].
Qed.

(** The copy of the sample settings, made with the reference reference. *)
Lemma copy_equal_and_independent_witness :
  let r := copy reference.CopyPointer reference.CopySlice samples.openvpn samples.heap0 in
  view r.2 r.1 = view samples.heap0 samples.openvpn /\
  view r.2 samples.openvpn = view samples.heap0 samples.openvpn /\
  (forall l w, Some l ∈ cells r.1 ->
     view (<[l := w]> r.2) samples.openvpn = view samples.heap0 samples.openvpn).
Proof.
  intros r.
  apply (copy_equal_and_independent reference.CopyPointer reference.CopySlice
           reference_CopyPointer_ok reference_CopySlice_ok
           samples.openvpn samples.heap0 r.1 r.2 samples_openvpn_wellFormed).
  apply surjective_pairing.
Defined.

(** The copy of the sample settings lives in the cells 13 to 24; writing
    a new user name through the copy leaves the user of the original. *)
Example copy_sample_cells :
  cells (copy reference.CopyPointer reference.CopySlice samples.openvpn samples.heap0).1 =
  (Some <$> [13; 14; 15; 17; 18; 19; 20; 21; 22; 23; 24; 16]%positive) ++ [None].
Proof. vm_compute. reflexivity. Qed.

Example copy_sample_store :
  let r := copy reference.CopyPointer reference.CopySlice samples.openvpn samples.heap0 in
  let h := <[13%positive := VString "bob"]> r.2 in
  loadString h (User r.1) = Some "bob" /\
  loadString h (User samples.openvpn) = Some "alice".
Proof. vm_compute. split; reflexivity. Qed.

End copy_facts.

(** ** Defaults of the OpenVPN settings *)

Module defaults_facts.
Import errors mem settings copy_facts.

Section Defaults.
Variable X : Externals.
Variable DefaultPointer : ptr -> val -> heap -> ptr * heap.
Variable DefaultString : string -> string -> string.
Hypothesis DefaultPointer_ok : DefaultPointerContract DefaultPointer.
Hypothesis DefaultString_ok : DefaultStringContract DefaultString.

(** One call of [DefaultPointer]: the result is not nil, the heap only
    grows, and a pointer that was set is returned as it is. *)
Lemma DefaultPointer_step (p : ptr) (d : val) (hi : heap) :
  exists l' hi',
    DefaultPointer p d hi = (Some l', hi') /\ hi ⊆ hi' /\
    (p <> None -> p = Some l').
Proof.
  destruct DefaultPointer_ok as [Hset Hnil]. destruct p as [l|].
  - exists l, hi. split; [apply Hset |]. split; [reflexivity | auto].
  - destruct (Hnil d hi) as (l' & Hl' & E). exists l', (<[l' := d]> hi).
    split; [exact E |]. split; [apply insert_subseteq; exact Hl' |].
    intros N. contradiction.
Qed.

(** Defaulting a string twice is defaulting it once. *)
Lemma DefaultString_twice (s d : string) :
  DefaultString (DefaultString s d) d = DefaultString s d.
Proof.
  rewrite !DefaultString_ok.
  destruct (bool_decide (s = "")) eqn:E; [|rewrite E; reflexivity].
  destruct (bool_decide (d = "")); reflexivity.
Qed.

Lemma DefaultString_set (s d : string) : s <> "" -> DefaultString s d = s.
Proof.
  intros N. rewrite DefaultString_ok, bool_decide_eq_false_2; [reflexivity | exact N].
Qed.

(** C9. For helpers that default as their names say, applying
    [setDefaults] to its own result changes neither the settings nor the
    heap, and [setDefaults] keeps every field that was set: a pointer
    that is not nil stays the same pointer to the same value, a string
    that is not empty stays the same string, and the slices stay as they
    were. *)
Theorem setDefaults_idempotent_frame (o : OpenVPN) (h : heap)
    (vpnProvider : string) (o1 : OpenVPN) (h1 : heap) :
  wellFormed h o ->
  setDefaults X DefaultPointer DefaultString o h vpnProvider = (o1, h1) ->
  setDefaults X DefaultPointer DefaultString o1 h1 vpnProvider = (o1, h1) /\
  Forall2 (fun q q1 => q <> None -> q1 = q /\ load h1 q1 = load h q)
          (pointerFields o) (pointerFields o1) /\
  Forall2 (fun s s1 => s <> "" -> s1 = s)
          [Version o; Interface o; ProcessUser o]
          [Version o1; Interface o1; ProcessUser o1] /\
  sliceFields o1 = sliceFields o /\
  Forall (fun s => elems h1 s = elems h s) (sliceFields o).
Proof.
  intros [Hp Hs] E. unfold setDefaults in E.
  destruct (bool_decide (vpnProvider = Mullvad X)) eqn:Em.
  all: repeat match type of E with
       | context [DefaultPointer ?p ?d ?hc] =>
           let l' := fresh "l'" in
           let hn := fresh "hn" in
           let Ec := fresh "Ec" in
           let S := fresh "S" in
           let K := fresh "K" in
           destruct (DefaultPointer_step p d hc) as (l' & hn & Ec & S & K);
           rewrite Ec in E; clear Ec; cbv beta iota zeta in E
       end.
  all: injection E as <- <-.
  all: assert (h ⊆ hn9) as Hsub by sub.
  all: split; [|split; [|split; [|split]]].
  all: try reflexivity.
  1, 5: unfold setDefaults; cbn [Version User Password ConfFile Ciphers Auth Cert
          Key EncryptedKey KeyPassphrase PIAEncPreset MSSFix Interface
          ProcessUser Verbosity Flags];
        rewrite !DefaultString_twice;
        repeat (rewrite ?Em, (proj1 DefaultPointer_ok); cbv beta iota);
        reflexivity.
  1, 4: unfold pointerFields in *;
        cbn [Version User Password ConfFile Ciphers Auth Cert
          Key EncryptedKey KeyPassphrase PIAEncPreset MSSFix Interface
          ProcessUser Verbosity Flags];
        repeat match goal with
        | H : Forall _ (_ :: _) |- _ =>
            let Hx := fresh "Hx" in apply Forall_cons in H as [Hx H]
        end;
        repeat (constructor;
          [intros Hne;
           match goal with
           | K : ?q <> None -> ?q = Some ?l |- Some ?l = ?q /\ _ =>
               split; [symmetry; exact (K Hne) |];
               rewrite <- (K Hne); apply load_weaken; assumption
           end |]);
        constructor.
  1, 3: cbn [Version Interface ProcessUser];
        repeat (constructor; [apply DefaultString_set |]); constructor.
  all: eapply Forall_impl; [exact Hs |]; intros s Hb;
       apply elems_weaken; assumption.
Qed.

End Defaults.

Lemma reference_DefaultPointer_ok : DefaultPointerContract reference.DefaultPointer.
Proof.
  split.
  - reflexivity.
  - intros d h. exists (reference.new h). split; [apply new_fresh | reflexivity].
Qed.

Lemma reference_DefaultString_ok : DefaultStringContract reference.DefaultString.
Proof. intros s d. reflexivity. Qed.

Lemma samples_partial_wellFormed : wellFormed samples.heap0 samples.partial.
Proof.
  split.
  - unfold pointerFields. repeat constructor; simpl. eexists; vm_compute; reflexivity.
  - unfold sliceFields. repeat constructor.
    exists ["aes-256-gcm"; "aes-128-gcm"; "aes-256-cbc"]%string.
    split; [vm_compute; reflexivity | simpl; lia].
Qed.

(** The defaults of the sample settings that have only the user and the
    ciphers set, for Mullvad, with the reference reference. *)
Lemma setDefaults_idempotent_frame_witness :
  let r := setDefaults samples.externals reference.DefaultPointer reference.DefaultString
             samples.partial samples.heap0 "mullvad" in
  setDefaults samples.externals reference.DefaultPointer reference.DefaultString
    r.1 r.2 "mullvad" = (r.1, r.2) /\
  Forall2 (fun q q1 => q <> None -> q1 = q /\ load r.2 q1 = load samples.heap0 q)
          (pointerFields samples.partial) (pointerFields r.1) /\
  Forall2 (fun s s1 => s <> "" -> s1 = s)
          [Version samples.partial; Interface samples.partial; ProcessUser samples.partial]
          [Version r.1; Interface r.1; ProcessUser r.1] /\
  sliceFields r.1 = sliceFields samples.partial /\
  Forall (fun s => elems r.2 s = elems samples.heap0 s) (sliceFields samples.partial).
Proof.
  intros r.
  apply (setDefaults_idempotent_frame samples.externals
           reference.DefaultPointer reference.DefaultString
           reference_DefaultPointer_ok reference_DefaultString_ok
           samples.partial samples.heap0 "mullvad" r.1 r.2
           samples_partial_wellFormed).
  apply surjective_pairing.
Defined.

(** For Mullvad the password defaults to m; the user that was set stays. *)
Example setDefaults_sample :
  let r := setDefaults samples.externals reference.DefaultPointer reference.DefaultString
             samples.partial samples.heap0 "mullvad" in
  Version r.1 = "2.5" /\ Interface r.1 = "tun0" /\ ProcessUser r.1 = "root" /\
  User r.1 = Some 1%positive /\
  loadString r.2 (User r.1) = Some "alice" /\
  loadString r.2 (Password r.1) = Some "m" /\
  loadInt r.2 (Verbosity r.1) = Some 1.
Proof. vm_compute. repeat split; reflexivity. Qed.

End defaults_facts.

(** ** The Cyberghost updater *)

Module updater_facts.
Import errors updater.

(** C10. When the resolver returns an error, [FetchServers] returns the
    nil slice and that error; otherwise it returns, without error, the
    servers of the table adapted with the resolved addresses, in
    ascending order of [SortableServers]. *)
Theorem FetchServers_result (Ctx hostToServer hostToIPs Server : Type)
    (getPossibleServers : hostToServer)
    (hostsSlice : hostToServer -> list string)
    (adaptWithIPs : hostToServer -> hostToIPs -> hostToServer)
    (toSlice : hostToServer -> list Server)
    (Resolve : Ctx -> list string -> Z -> hostToIPs * list string * option error)
    (Less : Server -> Server -> bool)
    (sortSort : list Server -> list Server)
    (ctx : Ctx) (minServers : Z) :
  sortContract Server Less sortSort ->
  let fetched :=
    FetchServers Ctx hostToServer hostToIPs Server getPossibleServers hostsSlice
                 adaptWithIPs toSlice Resolve sortSort ctx minServers in
  match Resolve ctx (hostsSlice getPossibleServers) minServers with
  | (_, _, Some err) => fetched = (None, Some err)
  | (hostToIPs, _, None) =>
      exists servers,
        fetched = (Some servers, None) /\
        servers ≡ₚ toSlice (adaptWithIPs getPossibleServers hostToIPs) /\
        IsSorted Server Less servers = true
  end.
Proof.
  intros Hsort fetched. subst fetched. unfold FetchServers.
  destruct (Resolve ctx (hostsSlice getPossibleServers) minServers)
    as [[ips warnings] [err|]].
  - reflexivity.
  - destruct (Hsort (toSlice (adaptWithIPs getPossibleServers ips))) as [Hperm Hsorted].
    eexists. split; [reflexivity |]. split; assumption.
Qed.

(** A list sorted for "not greater" passes [sort.IsSorted]. *)
Lemma Sorted_IsSorted (Server : Type) (Less : Server -> Server -> bool)
    (data : list Server) :
  Sorted (fun a b => Less b a = false) data -> IsSorted Server Less data = true.
Proof.
  induction 1 as [|a rest Hrest IH Hhd]; [reflexivity |].
  destruct Hhd as [|b rest Hab]; [reflexivity |].
  cbn [IsSorted]. rewrite Hab. exact IH.
Qed.

Lemma samples_sort_ok : sortContract samples.Server samples.Less samples.sortSort.
Proof.
  intros data. unfold samples.sortSort. split.
  - apply merge_sort_Permutation.
  - apply Sorted_IsSorted, Sorted_merge_sort.
    intros a b. unfold samples.Less.
    destruct (Z.ltb_spec b.1 a.1); [right | left]; [apply Z.ltb_ge; lia | reflexivity].
Qed.

(** The sample table, resolved in full and sorted by merging. *)
Lemma FetchServers_result_witness :
  exists servers,
    FetchServers unit (list samples.Server) (string -> list string) samples.Server
                 samples.possibleServers (fmap snd) samples.keepAll id
                 samples.resolveAll samples.sortSort tt 1 = (Some servers, None) /\
    servers ≡ₚ samples.possibleServers /\
    IsSorted samples.Server samples.Less servers = true.
Proof.
  exact (FetchServers_result unit (list samples.Server) (string -> list string)
           samples.Server samples.possibleServers (fmap snd) samples.keepAll id
           samples.resolveAll samples.Less samples.sortSort tt 1 samples_sort_ok).
Defined.

Example FetchServers_sample :
  FetchServers unit (list samples.Server) (string -> list string) samples.Server
               samples.possibleServers (fmap snd) samples.keepAll id
               samples.resolveAll samples.sortSort tt 1 =
  (Some [(1, "a.example.org"); (2, "b.example.org"); (3, "c.example.org")]%string, None).
Proof. vm_compute. reflexivity. Qed.

End updater_facts.

(** ** Further properties of the address resolver *)

Module resolver_extras.
Import errors netip routing basics family_facts resolver_facts resolver_results.

Lemma ipMatchesFamily_other (F4 F6 : Z) (ip : Addr) (family : Z) :
  family <> F4 -> family <> F6 -> ipMatchesFamily F4 F6 ip family = false.
Proof.
  intros H4 H6. unfold ipMatchesFamily.
  apply Z.eqb_neq in H4, H6. rewrite H4, H6. reflexivity.
Qed.

(** X1. No address matches a family that is neither V4 nor V6, and the zero
    address matches no family at all. *)
Theorem ipMatchesFamily_rejects (F4 F6 : Z) :
  (forall ip family,
     family <> F4 -> family <> F6 -> ipMatchesFamily F4 F6 ip family = false) /\
  (forall family, ipMatchesFamily F4 F6 zero family = false).
Proof.
  split.
  - intros ip family. apply ipMatchesFamily_other.
  - intros family. unfold ipMatchesFamily. simpl.
    rewrite !andb_false_r. reflexivity.
Qed.

Lemma ipMatchesFamily_rejects_witness :
  ipMatchesFamily samples.FAMILY_V4 samples.FAMILY_V6 (AddrFrom4 10 8 0 2) 0 = false.
Proof.
  apply (proj1 (ipMatchesFamily_rejects samples.FAMILY_V4 samples.FAMILY_V6));
    discriminate.
Defined.

(** X2. Which families an address matches, by its form: a V4-mapped-V6
    address matches V4 and V6, a bare V4 address matches V4 only, any
    other 16-byte address matches V6 only, and the zero address matches
    nothing. *)
Theorem ipMatchesFamily_by_form (F4 F6 : Z) (ip : Addr) (family : Z) :
  ipMatchesFamily F4 F6 ip family =
    if Is4In6 ip then (family =? F4) || (family =? F6)
    else if Is4 ip then family =? F4
    else if Is6 ip then family =? F6
    else false.
Proof.
  unfold ipMatchesFamily.
  destruct (Is4In6 ip) eqn:Hm.
  - rewrite (Is4In6_Is6 ip Hm), orb_true_r, !andb_true_r. apply orb_comm.
  - unfold Is4, Is6. destruct (z ip); simpl;
      rewrite ?andb_false_r, ?andb_true_r, ?orb_false_r; reflexivity.
Qed.

(** X3. When the interface exists but its addresses cannot be listed,
    [assignedIP] returns the zero address and an error that wraps the
    error of the listing, whatever the family. *)
Theorem assignedIP_listing_failed (F4 F6 : Z) (conv : net.IP -> Addr)
    (host : net.Host) (name : string) (family : Z)
    (iface : net.Interface) (err : error) :
  net.InterfaceByName host name = net.Ok iface ->
  net.Addrs iface = net.Err err ->
  assignedIP F4 F6 conv host name family = (zero, Some (AddressListFailed name err)) /\
  Is (AddressListFailed name err) err = true /\
  Unwrap (AddressListFailed name err) = Some err.
Proof.
  intros Hi Ha. unfold assignedIP. rewrite Hi, Ha.
  split; [reflexivity |]. split; [apply Is_Errorf | reflexivity].
Qed.

(** A host on which listing the addresses of eth0 is not permitted. *)
Lemma assignedIP_listing_failed_witness :
  let host := net.mkHost (fun _ =>
                net.Ok (net.mkInterface "eth0" (net.Err (New "operation not permitted")))) in
  assignedIP samples.FAMILY_V4 samples.FAMILY_V6 samples.conv host "eth0" samples.FAMILY_V4 =
    (zero, Some (AddressListFailed "eth0" (New "operation not permitted"))) /\
  Is (AddressListFailed "eth0" (New "operation not permitted"))
     (New "operation not permitted") = true /\
  Unwrap (AddressListFailed "eth0" (New "operation not permitted")) =
    Some (New "operation not permitted").
Proof.
  intros host.
  exact (assignedIP_listing_failed samples.FAMILY_V4 samples.FAMILY_V6 samples.conv
           host "eth0" samples.FAMILY_V4
           (net.mkInterface "eth0" (net.Err (New "operation not permitted")))
           (New "operation not permitted") eq_refl eq_refl).
Defined.

(** X4. With two distinct family constants, a successful answer for V4 is
    always a bare V4 address, one that [ipMatchesFamily] accepts for V4
    again. *)
Theorem assignedIP_V4_result_is_V4 (F4 F6 : Z) (conv : net.IP -> Addr)
    (host : net.Host) (name : string) (r : Addr) :
  F4 <> F6 ->
  assignedIP F4 F6 conv host name F4 = (r, None) ->
  Is4 r = true /\ ipMatchesFamily F4 F6 r F4 = true.
Proof.
  intros Hne. unfold assignedIP.
  destruct (net.InterfaceByName host name) as [iface|err]; [|discriminate].
  destruct (net.Addrs iface) as [addresses|err]; [|discriminate].
  destruct (assignedIP_loop F4 F6 conv F4 addresses zero) as [found|ip] eqn:E;
    [|discriminate].
  intros H. injection H as <-.
  destruct (loop_inl F4 F6 conv F4 addresses zero found E)
    as (_ & _ & _ & m & _ & _ & _ & Hm & ->).
  assert (Is4 (Unmap m) = true) as H4.
  { apply ipMatchesFamily_iff in Hm as [[Heq _]|[_ [H4|H46]]].
    - congruence.
    - rewrite Unmap_id; [exact H4 |].
      unfold Is4In6, Is4, Is6 in *. destruct (z m); try discriminate. reflexivity.
    - rewrite (Unmap_mapped m H46). reflexivity. }
  split; [exact H4 |]. apply ipMatchesFamily_iff. right. auto.
Qed.

Lemma assignedIP_V4_result_is_V4_witness :
  Is4 (AddrFrom4 10 8 0 2) = true /\
  ipMatchesFamily samples.FAMILY_V4 samples.FAMILY_V6 (AddrFrom4 10 8 0 2)
    samples.FAMILY_V4 = true.
Proof.
  apply (assignedIP_V4_result_is_V4 samples.FAMILY_V4 samples.FAMILY_V6 samples.conv
           samples.host "tun0" (AddrFrom4 10 8 0 2)).
  - discriminate.
  - vm_compute. reflexivity.
Defined.

(** X5. The entries before the first matching one and all the entries after
    it do not change the answer: two interfaces whose first matching
    entry is the same resolve to the same address. *)
Theorem assignedIP_first_match_decides (F4 F6 : Z) (conv : net.IP -> Addr)
    (host1 host2 : net.Host) (name1 name2 : string) (family : Z)
    (iface1 iface2 : net.Interface) (pre1 pre2 post1 post2 : list net.Addr)
    (a : net.Addr) :
  net.InterfaceByName host1 name1 = net.Ok iface1 ->
  net.Addrs iface1 = net.Ok (pre1 ++ a :: post1) ->
  net.InterfaceByName host2 name2 = net.Ok iface2 ->
  net.Addrs iface2 = net.Ok (pre2 ++ a :: post2) ->
  Forall (fun x => entryMatches F4 F6 conv family x = false) pre1 ->
  Forall (fun x => entryMatches F4 F6 conv family x = false) pre2 ->
  entryMatches F4 F6 conv family a = true ->
  assignedIP F4 F6 conv host1 name1 family = assignedIP F4 F6 conv host2 name2 family /\
  (assignedIP F4 F6 conv host1 name1 family).2 = None.
Proof.
  intros Hi1 Ha1 Hi2 Ha2 Hp1 Hp2 Hm. unfold assignedIP. rewrite Hi1, Ha1, Hi2, Ha2.
  unfold entryMatches in Hm. destruct (entryIP conv a) as [m|] eqn:Em; [|discriminate].
  destruct (loop_skip F4 F6 conv family pre1 (a :: post1) zero Hp1) as [ip1 ->].
  destruct (loop_skip F4 F6 conv family pre2 (a :: post2) zero Hp2) as [ip2 ->].
  rewrite (loop_hit F4 F6 conv family a post1 ip1 m Em Hm).
  rewrite (loop_hit F4 F6 conv family a post2 ip2 m Em Hm).
  split; reflexivity.
Qed.

(** tun0 of the sample host, and an interface that has only the tunnel
    address. *)
Lemma assignedIP_first_match_decides_witness :
  let host2 := net.mkHost (fun _ =>
                 net.Ok (net.mkInterface "tun9"
                           (net.Ok [net.IPNet samples.tunnel [255; 255; 255; 0]]))) in
  assignedIP samples.FAMILY_V4 samples.FAMILY_V6 samples.conv samples.host "tun0"
             samples.FAMILY_V4 =
  assignedIP samples.FAMILY_V4 samples.FAMILY_V6 samples.conv host2 "tun9"
             samples.FAMILY_V4 /\
  (assignedIP samples.FAMILY_V4 samples.FAMILY_V6 samples.conv samples.host "tun0"
              samples.FAMILY_V4).2 = None.
Proof.
  intros host2.
  apply (assignedIP_first_match_decides samples.FAMILY_V4 samples.FAMILY_V6 samples.conv
           samples.host host2 "tun0" "tun9" samples.FAMILY_V4 samples.tun0
           (net.mkInterface "tun9" (net.Ok [net.IPNet samples.tunnel [255; 255; 255; 0]]))
           [net.OtherAddr "unix" "/run/sock";
            net.IPNet samples.linkLocal
              [255; 255; 255; 255; 255; 255; 255; 255; 0; 0; 0; 0; 0; 0; 0; 0]]
           [] [] [] (net.IPNet samples.tunnel [255; 255; 255; 0]));
    try reflexivity; repeat constructor.
Defined.

Lemma default_last_cons {A : Type} (d x : A) (l : list A) :
  default d (last (x :: l)) = default x (last l).
Proof.
  destruct l as [|y l]; [reflexivity |].
  rewrite last_cons. destruct (last (y :: l)) eqn:E; [reflexivity |].
  apply last_None in E. discriminate.
Qed.

(** The loop over entries none of which matches ends with the address of
    the last entry that carries one. *)
Lemma loop_no_match (F4 F6 : Z) (conv : net.IP -> Addr) (family : Z)
    (addresses : list net.Addr) (ip : Addr) :
  Forall (fun x => entryMatches F4 F6 conv family x = false) addresses ->
  assignedIP_loop F4 F6 conv family addresses ip =
    inr (default ip (last (omap (entryIP conv) addresses))).
Proof.
  intros H. revert ip. induction H as [|a rest Ha _ IH]; intros ip; [reflexivity |].
  unfold entryMatches in Ha.
  destruct a as [v zone|v mask|nw txt]; simpl in Ha.
  - change (omap (entryIP conv) (net.IPAddr v zone :: rest))
      with (conv v :: omap (entryIP conv) rest).
    rewrite default_last_cons. simpl. rewrite Ha. simpl. apply IH.
  - change (omap (entryIP conv) (net.IPNet v mask :: rest))
      with (conv v :: omap (entryIP conv) rest).
    rewrite default_last_cons. simpl. rewrite Ha. simpl. apply IH.
  - apply IH.
Qed.

(** X6. When no entry of the interface matches, the address returned next to
    the error is not the zero address in general: it is the address of
    the last listed entry that carries one, and the zero address only
    when no entry does.  The error counts every listed entry. *)
Theorem assignedIP_no_match_address (F4 F6 : Z) (conv : net.IP -> Addr)
    (host : net.Host) (name : string) (family : Z)
    (iface : net.Interface) (addresses : list net.Addr) :
  net.InterfaceByName host name = net.Ok iface ->
  net.Addrs iface = net.Ok addresses ->
  Forall (fun x => entryMatches F4 F6 conv family x = false) addresses ->
  assignedIP F4 F6 conv host name family =
    (default zero (last (omap (entryIP conv) addresses)),
     Some (NoMatchingAddress name (length addresses))).
Proof.
  intros Hi Ha Hno. unfold assignedIP. rewrite Hi, Ha.
  rewrite (loop_no_match F4 F6 conv family addresses zero Hno). reflexivity.
Qed.

Lemma assignedIP_no_match_address_witness :
  assignedIP samples.FAMILY_V4 samples.FAMILY_V6 samples.conv samples.host "tun1"
             samples.FAMILY_V4 =
    (samples.conv samples.linkLocal, Some (NoMatchingAddress "tun1" 1)).
Proof.
  apply (assignedIP_no_match_address samples.FAMILY_V4 samples.FAMILY_V6 samples.conv
           samples.host "tun1" samples.FAMILY_V4 samples.tun1
           [net.IPAddr samples.linkLocal ""] eq_refl eq_refl).
  repeat constructor.
Defined.

(** X7. For a family that is neither V4 nor V6, [assignedIP] finds no
    address on any interface that exists and lists its addresses. *)
Theorem assignedIP_unknown_family (F4 F6 : Z) (conv : net.IP -> Addr)
    (host : net.Host) (name : string) (family : Z)
    (iface : net.Interface) (addresses : list net.Addr) :
  family <> F4 -> family <> F6 ->
  net.InterfaceByName host name = net.Ok iface ->
  net.Addrs iface = net.Ok addresses ->
  (assignedIP F4 F6 conv host name family).2 =
    Some (NoMatchingAddress name (length addresses)).
Proof.
  intros H4 H6 Hi Ha. unfold assignedIP. rewrite Hi, Ha.
  rewrite (loop_no_match F4 F6 conv family addresses zero); [reflexivity |].
  apply Forall_forall. intros x _. unfold entryMatches.
  destruct (entryIP conv x); [|reflexivity].
  apply ipMatchesFamily_other; assumption.
Qed.

Lemma assignedIP_unknown_family_witness :
  (assignedIP samples.FAMILY_V4 samples.FAMILY_V6 samples.conv samples.host "tun0" 0).2 =
    Some (NoMatchingAddress "tun0" 3).
Proof.
  apply (assignedIP_unknown_family samples.FAMILY_V4 samples.FAMILY_V6 samples.conv
           samples.host "tun0" 0 samples.tun0 samples.tun0Addrs);
    try discriminate; reflexivity.
Defined.

Lemma Is_Errorf_New (t : string) (w : error) (s : string) :
  Is (Errorf t w) (New s) = Is w (New s).
Proof. reflexivity. Qed.

(** X8. A caller can tell the failure worth retrying with [errors.Is]: when
    the errors of the host itself do not wrap [errInterfaceIPNotFound],
    the error of a failing call wraps it exactly when the interface
    exists, its addresses were listed and none of them matched. *)
Theorem assignedIP_error_is_not_found (F4 F6 : Z) (conv : net.IP -> Addr)
    (host : net.Host) (name : string) (family : Z) (ip : Addr) (e : error) :
  (forall err, net.InterfaceByName host name = net.Err err ->
     Is err errInterfaceIPNotFound = false) ->
  (forall iface err, net.InterfaceByName host name = net.Ok iface ->
     net.Addrs iface = net.Err err -> Is err errInterfaceIPNotFound = false) ->
  assignedIP F4 F6 conv host name family = (ip, Some e) ->
  (Is e errInterfaceIPNotFound = true <->
   exists iface addresses,
     net.InterfaceByName host name = net.Ok iface /\
     net.Addrs iface = net.Ok addresses /\
     Forall (fun x => entryMatches F4 F6 conv family x = false) addresses).
Proof.
  intros Hl Ha. unfold assignedIP.
  destruct (net.InterfaceByName host name) as [iface|err] eqn:Ei.
  - destruct (net.Addrs iface) as [addresses|err] eqn:Ea.
    + destruct (assignedIP_loop F4 F6 conv family addresses zero) as [found|ip'] eqn:El;
        [discriminate |].
      intros H. injection H as _ <-. split; [|reflexivity].
      intros _. exists iface, addresses.
      split; [reflexivity |]. split; [exact Ea |].
      apply (loop_inr F4 F6 conv family addresses zero). exists ip'. exact El.
    + intros H. injection H as _ <-.
      unfold errInterfaceIPNotFound. rewrite Is_Errorf_New.
      fold errInterfaceIPNotFound. rewrite (Ha iface err eq_refl Ea).
      split; [discriminate |]. intros (i & l & Hi & Hl' & _).
      injection Hi as <-. congruence.
  - intros H. injection H as _ <-.
    unfold errInterfaceIPNotFound. rewrite Is_Errorf_New.
    fold errInterfaceIPNotFound. rewrite (Hl err eq_refl).
    split; [discriminate |]. intros (i & l & Hi & _). discriminate.
Qed.

Lemma assignedIP_error_is_not_found_witness :
  Is (InterfaceNotFound "wg0" samples.noSuchInterface) errInterfaceIPNotFound = true <->
  exists iface addresses,
    net.InterfaceByName samples.host "wg0" = net.Ok iface /\
    net.Addrs iface = net.Ok addresses /\
    Forall (fun x => entryMatches samples.FAMILY_V4 samples.FAMILY_V6 samples.conv
                       samples.FAMILY_V4 x = false) addresses.
Proof.
  apply (assignedIP_error_is_not_found samples.FAMILY_V4 samples.FAMILY_V6 samples.conv
           samples.host "wg0" samples.FAMILY_V4 zero
           (InterfaceNotFound "wg0" samples.noSuchInterface)).
  - intros err H. injection H as <-. reflexivity.
  - intros iface err H. discriminate H.
  - reflexivity.
Defined.

End resolver_extras.

(** ** Further properties of the validation *)

Module validate_extras.
Import errors mem settings settings_methods basics.

Lemma bool_decide_in4 (s a b c d : string) :
  bool_decide (s ∈ [a; b; c; d]) =
  bool_decide (s = a) || bool_decide (s = b) || bool_decide (s = c) || bool_decide (s = d).
Proof.
  destruct (bool_decide (s ∈ [a; b; c; d])) eqn:E; symmetry.
  - apply bool_decide_eq_true_1 in E. rewrite !elem_of_cons, elem_of_nil in E.
    rewrite !orb_true_iff, !bool_decide_eq_true. tauto.
  - apply bool_decide_eq_false_1 in E. rewrite !elem_of_cons, elem_of_nil in E.
    rewrite !orb_false_iff, !bool_decide_eq_false. tauto.
Qed.

(** X9. The client certificate, the client key and the encrypted key: an
    empty value is refused with [ErrMissingValue] for the providers that
    need it and accepted for the others; a value that is not empty is
    judged by the base64 decoder alone. *)
Theorem client_material_validation (X : Externals) (vpnProvider value : string) :
  validateOpenVPNClientCertificate X vpnProvider value =
    (if bool_decide (value = "")
     then if bool_decide (vpnProvider ∈ [Airvpn X; Cyberghost X; VPNSecure X; VPNUnlimited X])
          then Some (wrap (ErrMissingValue X)) else None
     else base64DecodeString X value) /\
  validateOpenVPNClientKey X vpnProvider value =
    (if bool_decide (value = "")
     then if bool_decide (vpnProvider ∈ [Airvpn X; Cyberghost X; VPNUnlimited X; Wevpn X])
          then Some (wrap (ErrMissingValue X)) else None
     else base64DecodeString X value) /\
  validateOpenVPNEncryptedKey X vpnProvider value =
    (if bool_decide (value = "")
     then if bool_decide (vpnProvider = VPNSecure X)
          then Some (wrap (ErrMissingValue X)) else None
     else base64DecodeString X value).
Proof.
  unfold validateOpenVPNClientCertificate, validateOpenVPNClientKey,
    validateOpenVPNEncryptedKey.
  rewrite !bool_decide_in4.
  destruct (bool_decide (value = "")); rewrite ?andb_false_r, ?andb_true_r;
    repeat split; reflexivity.
Qed.

(** X10. The configuration file is looked at only for the custom provider;
    there it is accepted exactly when the path is not empty, the file
    exists and the extraction succeeds. *)
Theorem config_filepath_validation (X : Externals) (confFile : string) :
  validateOpenVPNConfigFilepath X false confFile = None /\
  (validateOpenVPNConfigFilepath X true confFile = None <->
   confFile <> "" /\ FileExists X confFile = None /\ extractData X confFile = None) /\
  (confFile = "" ->
   validateOpenVPNConfigFilepath X true confFile = Some (wrap (ErrFilepathMissing X))).
Proof.
  unfold validateOpenVPNConfigFilepath. simpl.
  split; [reflexivity |]. split.
  - case_bool_decide as E.
    + split; [discriminate | intros [N _]; contradiction].
    + destruct (FileExists X confFile); [split; [discriminate | intros (_ & ? & _); discriminate] |].
      destruct (extractData X confFile);
        [split; [discriminate | intros (_ & _ & ?); discriminate] | tauto].
  - intros ->. reflexivity.
Qed.

Lemma config_filepath_validation_witness :
  validateOpenVPNConfigFilepath samples.externals false "" = None /\
  (validateOpenVPNConfigFilepath samples.externals true "" = None <->
   "" <> "" /\ FileExists samples.externals "" = None /\
   extractData samples.externals "" = None) /\
  ("" = "" ->
   validateOpenVPNConfigFilepath samples.externals true "" =
     Some (wrap (ErrFilepathMissing samples.externals))).
Proof. exact (config_filepath_validation samples.externals ""). Defined.

End validate_extras.

Module validate_accepts.
Import errors mem settings settings_methods basics.

Ltac bind_step H name :=
  match type of H with
  | mbind _ ?m = _ => destruct m as [name|] eqn:?; simpl in H; [|discriminate H]
  end.

Ltac match_step H :=
  match type of H with
  | match ?x with _ => _ end = _ => destruct x eqn:?; simpl in H; try discriminate H
  end.

Lemma andThen_false (a : bool) (b : option bool) :
  andThen a b = Some false -> a = true -> b = Some false.
Proof. intros H ->. exact H. Qed.

Lemma fmap_is_empty_false (m : option string) :
  (fun s => bool_decide (s = "")) <$> m = Some false ->
  exists s, m = Some s /\ s <> "".
Proof.
  destruct m as [s|]; simpl; [|discriminate].
  intros H. injection H as H. exists s. split; [reflexivity |].
  apply bool_decide_eq_false_1 in H. exact H.
Qed.

(** X11. What [validate] has checked when it returns no error: the version is
    one of the two known ones; a user is there for every provider that
    needs one; the configuration file, the certificate and the keys
    passed their own validation; an encrypted key comes with a
    passphrase; MSSFix is at most 10000; the interface name matches; and
    the verbosity lies between 0 and 6. *)
Theorem validate_accepted (X : Externals) (o : OpenVPN) (h : heap)
    (vpnProvider : string) :
  validate X o h vpnProvider = Some None ->
  IsOneOf X (Version o) [Openvpn24 X; Openvpn25 X] = true /\
  (vpnProvider <> Custom X -> vpnProvider <> Airvpn X -> vpnProvider <> VPNSecure X ->
   exists user, loadString h (User o) = Some user /\ user <> "") /\
  (exists confFile cert key encryptedKey,
     loadString h (ConfFile o) = Some confFile /\
     loadString h (Cert o) = Some cert /\
     loadString h (Key o) = Some key /\
     loadString h (EncryptedKey o) = Some encryptedKey /\
     validateOpenVPNConfigFilepath X (bool_decide (vpnProvider = Custom X)) confFile = None /\
     validateOpenVPNClientCertificate X vpnProvider cert = None /\
     validateOpenVPNClientKey X vpnProvider key = None /\
     validateOpenVPNEncryptedKey X vpnProvider encryptedKey = None /\
     (encryptedKey <> "" ->
      exists passphrase,
        loadString h (KeyPassphrase o) = Some passphrase /\ passphrase <> "")) /\
  (exists mssFix, loadUint16 h (MSSFix o) = Some mssFix /\ mssFix <= 10000) /\
  regexpInterfaceNameMatchString X (Interface o) = true /\
  (exists verbosity, loadInt h (Verbosity o) = Some verbosity /\ 0 <= verbosity <= 6).
Proof.
  intros H. unfold validate in H.
  destruct (validateBeforeVerbosity X o h vpnProvider) as [[e|]|] eqn:Hb;
    simpl in H; try discriminate H.
  bind_step H verbosity.
  destruct (verbosity <? 0) eqn:V0; [discriminate H |].
  destruct (verbosity >? 6) eqn:V6; [discriminate H |].
  unfold validateBeforeVerbosity in Hb.
  destruct (IsOneOf X (Version o) [Openvpn24 X; Openvpn25 X]) eqn:Ev;
    simpl in Hb; [|discriminate Hb].
  bind_step Hb userIsEmpty. destruct userIsEmpty; simpl in Hb; [discriminate Hb |].
  bind_step Hb passwordRequired.
  bind_step Hb passwordIsEmpty. destruct passwordIsEmpty; simpl in Hb; [discriminate Hb |].
  bind_step Hb confFile. match_step Hb.
  bind_step Hb cert. match_step Hb.
  bind_step Hb key. match_step Hb.
  bind_step Hb encryptedKey. match_step Hb.
  bind_step Hb passphraseMissing.
  destruct passphraseMissing; simpl in Hb; [discriminate Hb |].
  bind_step Hb mssFix.
  destruct (mssFix >? maxMSSFix) eqn:Em; [discriminate Hb |].
  destruct (regexpInterfaceNameMatchString X (Interface o)) eqn:Er;
    simpl in Hb; [|discriminate Hb].
  split; [reflexivity |]. split; [|split; [|split; [|split]]].
  - intros Hc Ha Hs.
    apply fmap_is_empty_false.
    match goal with
    | E : andThen _ (_ <$> loadString h (User o)) = Some false |- _ =>
        apply (andThen_false _ _ E)
    end.
    rewrite !bool_decide_eq_false_2 by assumption. reflexivity.
  - exists confFile, cert, key, encryptedKey.
    do 8 (split; [first [assumption | reflexivity] |]).
    intros Hne. apply fmap_is_empty_false.
    match goal with
    | E : andThen _ (_ <$> loadString h (KeyPassphrase o)) = Some false |- _ =>
        apply (andThen_false _ _ E)
    end.
    rewrite bool_decide_eq_false_2 by assumption. reflexivity.
  - exists mssFix. split; [first [assumption | reflexivity] |].
    unfold maxMSSFix in Em. rewrite Z.gtb_ltb in Em. apply Z.ltb_ge in Em. exact Em.
  - reflexivity.
  - exists verbosity. split; [first [assumption | reflexivity] |].
    rewrite Z.gtb_ltb in V6. apply Z.ltb_ge in V0, V6. lia.
Qed.

Lemma validate_accepted_witness :
  IsOneOf samples.externals (Version samples.openvpn)
          [Openvpn24 samples.externals; Openvpn25 samples.externals] = true /\
  ("mullvad" <> Custom samples.externals -> "mullvad" <> Airvpn samples.externals ->
   "mullvad" <> VPNSecure samples.externals ->
   exists user, loadString samples.heap0 (User samples.openvpn) = Some user /\ user <> "") /\
  (exists confFile cert key encryptedKey,
     loadString samples.heap0 (ConfFile samples.openvpn) = Some confFile /\
     loadString samples.heap0 (Cert samples.openvpn) = Some cert /\
     loadString samples.heap0 (Key samples.openvpn) = Some key /\
     loadString samples.heap0 (EncryptedKey samples.openvpn) = Some encryptedKey /\
     validateOpenVPNConfigFilepath samples.externals
       (bool_decide ("mullvad" = Custom samples.externals)) confFile = None /\
     validateOpenVPNClientCertificate samples.externals "mullvad" cert = None /\
     validateOpenVPNClientKey samples.externals "mullvad" key = None /\
     validateOpenVPNEncryptedKey samples.externals "mullvad" encryptedKey = None /\
     (encryptedKey <> "" ->
      exists passphrase,
        loadString samples.heap0 (KeyPassphrase samples.openvpn) = Some passphrase /\
        passphrase <> "")) /\
  (exists mssFix, loadUint16 samples.heap0 (MSSFix samples.openvpn) = Some mssFix /\
                  mssFix <= 10000) /\
  regexpInterfaceNameMatchString samples.externals (Interface samples.openvpn) = true /\
  (exists verbosity, loadInt samples.heap0 (Verbosity samples.openvpn) = Some verbosity /\
                     0 <= verbosity <= 6).
Proof.
  apply (validate_accepted samples.externals samples.openvpn samples.heap0 "mullvad").
  vm_compute. reflexivity.
Defined.

End validate_accepts.

Module validate_credentials.
Import errors mem settings settings_methods basics.

(** X12. For the custom provider, Airvpn and VPNSecure, [validate] reads
    neither the user nor the password: it returns the same with any
    other credentials, nil pointers included. *)
Theorem validate_ignores_credentials (X : Externals) (o : OpenVPN) (h : heap)
    (vpnProvider : string) (user password : ptr) :
  vpnProvider = Custom X \/ vpnProvider = Airvpn X \/ vpnProvider = VPNSecure X ->
  validate X (withCredentials o user password) h vpnProvider =
  validate X o h vpnProvider.
Proof.
  intros Hp. unfold validate, validateBeforeVerbosity, verbosityError.
  cbn [withCredentials Version User Password ConfFile Ciphers Auth Cert Key
       EncryptedKey KeyPassphrase PIAEncPreset MSSFix Interface ProcessUser
       Verbosity Flags].
  assert (negb (bool_decide (vpnProvider = Custom X)) &&
          negb (bool_decide (vpnProvider = Airvpn X)) &&
          negb (bool_decide (vpnProvider = VPNSecure X)) = false) as ->.
  { destruct Hp as [-> | [-> | ->]];
      rewrite (bool_decide_eq_true_2 _ eq_refl); simpl;
      rewrite ?andb_false_r; reflexivity. }
  reflexivity.
Qed.

Lemma validate_ignores_credentials_witness :
  validate samples.externals (withCredentials samples.openvpn None None)
           samples.heap0 "airvpn" =
  validate samples.externals samples.openvpn samples.heap0 "airvpn".
Proof.
  apply (validate_ignores_credentials samples.externals samples.openvpn samples.heap0
           "airvpn" None None).
  right. left. reflexivity.
Defined.

(** X13. For Ivpn, a user name of account form (i- or ivpn-, then three groups
    of four letters or digits) needs no password: [validate] does not
    read the password then. *)
Theorem validate_ivpn_account_needs_no_password (X : Externals) (o : OpenVPN)
    (h : heap) (user : string) (password : ptr) :
  Ivpn X <> Custom X -> Ivpn X <> Airvpn X -> Ivpn X <> VPNSecure X ->
  loadString h (User o) = Some user ->
  ivpnAccountIDMatchString user = true ->
  validate X (withCredentials o (User o) password) h (Ivpn X) =
  validate X o h (Ivpn X).
Proof.
  intros Hc Ha Hs Hu Hm. unfold validate, validateBeforeVerbosity, verbosityError.
  cbn [withCredentials Version User Password ConfFile Ciphers Auth Cert Key
       EncryptedKey KeyPassphrase PIAEncPreset MSSFix Interface ProcessUser
       Verbosity Flags].
  rewrite !(bool_decide_eq_false_2 _ Hc), !(bool_decide_eq_false_2 _ Ha),
    !(bool_decide_eq_false_2 _ Hs), (bool_decide_eq_true_2 (Ivpn X = Ivpn X) eq_refl).
  rewrite Hu. simpl. rewrite Hm. simpl. reflexivity.
Qed.

Lemma validate_ivpn_account_needs_no_password_witness :
  let h := <[1%positive := VString "ivpn-abcd-1234-WXYZ"]> samples.heap0 in
  validate samples.externals
           (withCredentials samples.openvpn (User samples.openvpn) None) h "ivpn" =
  validate samples.externals samples.openvpn h "ivpn".
Proof.
  intros h.
  apply (validate_ivpn_account_needs_no_password samples.externals samples.openvpn h
           "ivpn-abcd-1234-WXYZ" None); try discriminate; vm_compute; reflexivity.
Defined.

(** X14. For a provider that needs a user (any but the custom one, Airvpn and
    VPNSecure) and a known version: an empty user is refused with
    [ErrOpenVPNUserIsEmpty]; with a user, an empty password is refused
    with [ErrOpenVPNPasswordIsEmpty] unless the provider is Ivpn and the
    user has the account form. *)
Theorem validate_requires_credentials (X : Externals) (o : OpenVPN) (h : heap)
    (vpnProvider user : string) :
  IsOneOf X (Version o) [Openvpn24 X; Openvpn25 X] = true ->
  vpnProvider <> Custom X -> vpnProvider <> Airvpn X -> vpnProvider <> VPNSecure X ->
  loadString h (User o) = Some user ->
  (user = "" ->
   validate X o h vpnProvider = Some (Some (wrap (ErrOpenVPNUserIsEmpty X)))) /\
  (user <> "" ->
   vpnProvider <> Ivpn X \/ ivpnAccountIDMatchString user = false ->
   loadString h (Password o) = Some "" ->
   validate X o h vpnProvider = Some (Some (wrap (ErrOpenVPNPasswordIsEmpty X)))).
Proof.
  intros Hv Hc Ha Hs Hu. unfold validate, validateBeforeVerbosity.
  rewrite Hv, !(bool_decide_eq_false_2 _ Hc), !(bool_decide_eq_false_2 _ Ha),
    !(bool_decide_eq_false_2 _ Hs), Hu. simpl.
  split.
  - intros ->. reflexivity.
  - intros Hne Hi Hp. rewrite (bool_decide_eq_false_2 _ Hne). simpl.
    assert ((if negb (bool_decide (vpnProvider = Ivpn X)) then Some true
             else Some (negb (ivpnAccountIDMatchString user))) = Some true) as ->.
    { destruct Hi as [Hi|Hi].
      - rewrite (bool_decide_eq_false_2 _ Hi). reflexivity.
      - rewrite Hi. destruct (bool_decide (vpnProvider = Ivpn X)); reflexivity. }
    simpl. rewrite Hp. reflexivity.
Qed.

Lemma validate_requires_credentials_witness :
  let h := <[2%positive := VString ""]> samples.heap0 in
  ("alice" = "" ->
   validate samples.externals samples.openvpn h "mullvad" =
     Some (Some (wrap (ErrOpenVPNUserIsEmpty samples.externals)))) /\
  ("alice" <> "" ->
   "mullvad" <> Ivpn samples.externals \/ ivpnAccountIDMatchString "alice" = false ->
   loadString h (Password samples.openvpn) = Some "" ->
   validate samples.externals samples.openvpn h "mullvad" =
     Some (Some (wrap (ErrOpenVPNPasswordIsEmpty samples.externals)))).
Proof.
  intros h.
  apply (validate_requires_credentials samples.externals samples.openvpn h
           "mullvad" "alice"); try discriminate; vm_compute; reflexivity.
Defined.

End validate_credentials.

(** ** Further properties of the defaults *)

Module defaults_extras.
Import errors mem settings settings_methods copy_facts.

Section Defaults.
Variable X : Externals.
Variable DefaultPointer : ptr -> val -> heap -> ptr * heap.
Variable DefaultString : string -> string -> string.
Hypothesis DefaultPointer_ok : DefaultPointerContract DefaultPointer.
Hypothesis DefaultString_ok : DefaultStringContract DefaultString.

(** One call of [DefaultPointer], with the content of a new cell. *)
Lemma DefaultPointer_step_value (p : ptr) (d : val) (hi : heap) :
  exists l' hi',
    DefaultPointer p d hi = (Some l', hi') /\ hi ⊆ hi' /\
    (p <> None -> p = Some l') /\
    (p = None -> hi' !! l' = Some d).
Proof.
  destruct DefaultPointer_ok as [Hset Hnil]. destruct p as [l|].
  - exists l, hi. split; [apply Hset |]. split; [reflexivity |].
    split; [auto | discriminate].
  - destruct (Hnil d hi) as (l' & Hl' & E). exists l', (<[l' := d]> hi).
    split; [exact E |]. split; [apply insert_subseteq; exact Hl' |].
    split; [intros N; contradiction | intros _; apply lookup_insert_eq].
Qed.

(** Where each pointer of the result of [setDefaults] comes from: it is
    the pointer that was set, or a cell that holds the default. *)
Lemma setDefaults_cells (o : OpenVPN) (h : heap) (vpnProvider : string)
    (o1 : OpenVPN) (h1 : heap) :
  setDefaults X DefaultPointer DefaultString o h vpnProvider = (o1, h1) ->
  h ⊆ h1 /\
  Forall3 (fun q q1 d =>
             exists l, q1 = Some l /\
                       (q = Some l \/ (q = None /\ h1 !! l = Some d)))
          (pointerFields o) (pointerFields o1) (pointerDefaults X vpnProvider) /\
  Version o1 = DefaultString (Version o) (Openvpn25 X) /\
  Interface o1 = DefaultString (Interface o) "tun0" /\
  ProcessUser o1 = DefaultString (ProcessUser o) "root" /\
  sliceFields o1 = sliceFields o.
Proof.
  intros E. unfold setDefaults in E. unfold pointerDefaults.
  destruct (bool_decide (vpnProvider = Mullvad X)) eqn:Em.
  all: repeat match type of E with
       | context [DefaultPointer ?p ?d ?hc] =>
           let l' := fresh "l'" in
           let hn := fresh "hn" in
           let Ec := fresh "Ec" in
           let S := fresh "S" in
           let K := fresh "K" in
           let V := fresh "V" in
           destruct (DefaultPointer_step_value p d hc) as (l' & hn & Ec & S & K & V);
           rewrite Ec in E; clear Ec; cbv beta iota zeta in E
       end.
  all: injection E as <- <-.
  all: split; [sub |].
  all: split; [|repeat split; reflexivity].
  all: unfold pointerFields;
       cbn [Version User Password ConfFile Ciphers Auth Cert
            Key EncryptedKey KeyPassphrase PIAEncPreset MSSFix Interface
            ProcessUser Verbosity Flags].
  all: repeat (constructor;
         [eexists; split; [reflexivity |];
          match goal with
          | K : ?q <> None -> ?q = Some ?l, V : ?q = None -> _ !! ?l = Some _
            |- ?q = Some ?l \/ _ =>
              destruct q as [l0|] eqn:Eq;
              [left; apply K; discriminate
              | right; split; [reflexivity |];
                apply (lookup_weaken _ _ _ _ (V eq_refl)); sub]
          end |]).
  all: constructor.
Qed.


Lemma Forall3_Forall_middle {A B C : Type} (P : A -> B -> C -> Prop)
    (Q : A -> Prop) (R : B -> Prop) (l1 : list A) (l2 : list B) (l3 : list C) :
  Forall3 P l1 l2 l3 -> Forall Q l1 ->
  (forall a b c, P a b c -> Q a -> R b) -> Forall R l2.
Proof.
  intros H HQ Himp. induction H as [|a b c l1 l2 l3 Hp _ IH]; [constructor |].
  apply Forall_cons in HQ as [Ha HQ]. constructor; [eapply Himp; eauto | auto].
Qed.

Lemma DefaultString_not_empty (s d : string) :
  d <> "" -> DefaultString s d <> "".
Proof.
  intros Hd. rewrite DefaultString_ok.
  destruct (bool_decide (s = "")) eqn:E; [exact Hd |].
  apply bool_decide_eq_false_1 in E. exact E.
Qed.

(** X15. After [setDefaults] no pointer of the settings is nil and each one
    points to a live cell; the interface and the process user are not
    empty, and neither is the version when the default version is not. *)
Theorem setDefaults_all_set (o : OpenVPN) (h : heap) (vpnProvider : string)
    (o1 : OpenVPN) (h1 : heap) :
  wellFormed h o ->
  setDefaults X DefaultPointer DefaultString o h vpnProvider = (o1, h1) ->
  Forall (fun q => q <> None) (pointerFields o1) /\
  wellFormed h1 o1 /\
  Interface o1 <> "" /\ ProcessUser o1 <> "" /\
  (Openvpn25 X <> "" -> Version o1 <> "").
Proof.
  intros [Hp Hs] E.
  destruct (setDefaults_cells o h vpnProvider o1 h1 E)
    as (Hsub & Hcells & Hv & Hi & Hu & Hsl).
  split; [|split; [split |]].
  - apply (Forall3_Forall_middle _ (fun _ => True) _ _ _ _ Hcells).
    + apply Forall_forall. auto.
    + intros q q1 d (l & -> & _) _. discriminate.
  - apply (Forall3_Forall_middle _ (allocated h) _ _ _ _ Hcells Hp).
    intros q q1 d (l & -> & [-> | [_ Hl]]) Ha; simpl in *.
    + destruct Ha as [v Hv']. exists v. exact (lookup_weaken _ _ _ _ Hv' Hsub).
    + eexists. exact Hl.
  - rewrite Hsl. eapply Forall_impl; [exact Hs |].
    intros s Hb. exact (inBounds_weaken h h1 s Hb Hsub).
  - rewrite Hi, Hu, Hv.
    split; [apply DefaultString_not_empty; discriminate |].
    split; [apply DefaultString_not_empty; discriminate |].
    apply DefaultString_not_empty.
Qed.

(** X16. The values [setDefaults] gives to what was not set: the empty string
    for the user, the configuration file, the auth algorithm, the
    certificate, the keys and the passphrase; m for the password with
    Mullvad and the empty string otherwise; the strong preset with
    Private Internet Access and the empty string otherwise; 0 for MSSFix
    and 1 for the verbosity; the default version, tun0 and root for the
    three strings. *)
Theorem setDefaults_values (o : OpenVPN) (h : heap) (vpnProvider : string)
    (o1 : OpenVPN) (h1 : heap) :
  setDefaults X DefaultPointer DefaultString o h vpnProvider = (o1, h1) ->
  Forall3 (fun q q1 d => q = None -> load h1 q1 = Some d)
          (pointerFields o) (pointerFields o1) (pointerDefaults X vpnProvider) /\
  (Version o = "" -> Version o1 = Openvpn25 X) /\
  (Interface o = "" -> Interface o1 = "tun0") /\
  (ProcessUser o = "" -> ProcessUser o1 = "root").
Proof.
  intros E.
  destruct (setDefaults_cells o h vpnProvider o1 h1 E)
    as (Hsub & Hcells & Hv & Hi & Hu & Hsl).
  split.
  - eapply Forall3_impl; [exact Hcells |].
    intros q q1 d (l & -> & [-> | [_ Hl]]) Hq; [discriminate | exact Hl].
  - rewrite Hv, Hi, Hu, !DefaultString_ok.
    split; [intros ->; reflexivity |].
    split; intros ->; reflexivity.
Qed.

End Defaults.

Lemma setDefaults_all_set_witness :
  let r := setDefaults samples.externals reference.DefaultPointer reference.DefaultString
             samples.partial samples.heap0 "mullvad" in
  Forall (fun q => q <> None) (pointerFields r.1) /\
  wellFormed r.2 r.1 /\
  Interface r.1 <> "" /\ ProcessUser r.1 <> "" /\
  (Openvpn25 samples.externals <> "" -> Version r.1 <> "").
Proof.
  intros r.
  apply (setDefaults_all_set samples.externals
           reference.DefaultPointer reference.DefaultString
           defaults_facts.reference_DefaultPointer_ok
           defaults_facts.reference_DefaultString_ok
           samples.partial samples.heap0 "mullvad" r.1 r.2
           defaults_facts.samples_partial_wellFormed).
  apply surjective_pairing.
Defined.

Lemma setDefaults_values_witness :
  let r := setDefaults samples.externals reference.DefaultPointer reference.DefaultString
             samples.partial samples.heap0 "mullvad" in
  Forall3 (fun q q1 d => q = None -> load r.2 q1 = Some d)
          (pointerFields samples.partial) (pointerFields r.1)
          (pointerDefaults samples.externals "mullvad") /\
  (Version samples.partial = "" -> Version r.1 = Openvpn25 samples.externals) /\
  (Interface samples.partial = "" -> Interface r.1 = "tun0") /\
  (ProcessUser samples.partial = "" -> ProcessUser r.1 = "root").
Proof.
  intros r.
  apply (setDefaults_values samples.externals
           reference.DefaultPointer reference.DefaultString
           defaults_facts.reference_DefaultPointer_ok
           defaults_facts.reference_DefaultString_ok
           samples.partial samples.heap0 "mullvad" r.1 r.2).
  apply surjective_pairing.
Defined.

End defaults_extras.

(** ** Settings with their defaults can be validated and printed *)

Module defaults_usable.
Import errors mem settings settings_methods copy_facts defaults_extras.

Lemma cell_readable_string (h h1 : heap) (q q1 : ptr) (d : string) :
  h ⊆ h1 ->
  (exists l, q1 = Some l /\ (q = Some l \/ (q = None /\ h1 !! l = Some (VString d)))) ->
  (q <> None -> is_Some (loadString h q)) ->
  is_Some (loadString h1 q1).
Proof.
  intros Hsub (l & -> & [-> | [_ Hl]]) Ht.
  - destruct (Ht ltac:(discriminate)) as [s Hs]. exists s.
    unfold loadString, load in *. destruct (h !! l) as [v|] eqn:Ev; [|discriminate].
    rewrite (lookup_weaken _ _ _ _ Ev Hsub). exact Hs.
  - unfold loadString, load. rewrite Hl. eexists. reflexivity.
Qed.

Lemma cell_readable_uint16 (h h1 : heap) (q q1 : ptr) (d : Z) :
  h ⊆ h1 ->
  (exists l, q1 = Some l /\ (q = Some l \/ (q = None /\ h1 !! l = Some (VUint16 d)))) ->
  (q <> None -> is_Some (loadUint16 h q)) ->
  is_Some (loadUint16 h1 q1).
Proof.
  intros Hsub (l & -> & [-> | [_ Hl]]) Ht.
  - destruct (Ht ltac:(discriminate)) as [s Hs]. exists s.
    unfold loadUint16, load in *. destruct (h !! l) as [v|] eqn:Ev; [|discriminate].
    rewrite (lookup_weaken _ _ _ _ Ev Hsub). exact Hs.
  - unfold loadUint16, load. rewrite Hl. eexists. reflexivity.
Qed.

Lemma cell_readable_int (h h1 : heap) (q q1 : ptr) (d : Z) :
  h ⊆ h1 ->
  (exists l, q1 = Some l /\ (q = Some l \/ (q = None /\ h1 !! l = Some (VInt d)))) ->
  (q <> None -> is_Some (loadInt h q)) ->
  is_Some (loadInt h1 q1).
Proof.
  intros Hsub (l & -> & [-> | [_ Hl]]) Ht.
  - destruct (Ht ltac:(discriminate)) as [s Hs]. exists s.
    unfold loadInt, load in *. destruct (h !! l) as [v|] eqn:Ev; [|discriminate].
    rewrite (lookup_weaken _ _ _ _ Ev Hsub). exact Hs.
  - unfold loadInt, load. rewrite Hl. eexists. reflexivity.
Qed.

Ltac unroll_Forall3 H :=
  let C := fresh "C" in
  let T := fresh "T" in
  inversion_clear H as [|? ? ? ? ? ? C T]; try unroll_Forall3 T.

Ltac unroll_Forall H :=
  repeat match type of H with
  | Forall _ (_ :: _) =>
      let Hx := fresh "Hx" in apply Forall_cons in H as [Hx H]
  end.

(** After the defaults every pointer of well-typed settings can be
    dereferenced. *)
Lemma setDefaults_readable (X : Externals)
    (DefaultPointer : ptr -> val -> heap -> ptr * heap)
    (DefaultString : string -> string -> string)
    (o : OpenVPN) (h : heap) (vpnProvider : string) (o1 : OpenVPN) (h1 : heap) :
  DefaultPointerContract DefaultPointer ->
  wellTyped h o ->
  setDefaults X DefaultPointer DefaultString o h vpnProvider = (o1, h1) ->
  readable h1 o1.
Proof.
  intros Hok (Hs & Hm & Hv) E.
  destruct (setDefaults_cells X DefaultPointer DefaultString Hok o h vpnProvider o1 h1 E)
    as (Hsub & Hcells & _).
  unfold pointerFields, pointerDefaults in Hcells. unfold stringPointers in Hs.
  unroll_Forall3 Hcells. unroll_Forall Hs.
  unfold readable, stringPointers.
  split; [|split].
  - repeat (constructor; [eapply cell_readable_string; eassumption |]). constructor.
  - eapply cell_readable_uint16; eassumption.
  - eapply cell_readable_int; eassumption.
Qed.

Ltac settle :=
  repeat match goal with
  | |- is_Some (Some _) => eexists; reflexivity
  | |- is_Some (if ?b then _ else _) => destruct b; simpl
  | |- is_Some (match ?x with _ => _ end) => destruct x; simpl
  end.

(** [validate] dereferences no nil pointer on settings all of whose
    pointers can be dereferenced. *)
Lemma validate_readable (X : Externals) (o : OpenVPN) (h : heap) (vpnProvider : string) :
  readable h o -> is_Some (validate X o h vpnProvider).
Proof.
  intros (Hs & [mssFix Hm] & [verbosity Hv]). unfold stringPointers in Hs.
  unroll_Forall Hs.
  repeat match goal with
  | H : is_Some (loadString _ _) |- _ => destruct H as [? H]
  end.
  assert (is_Some (validateBeforeVerbosity X o h vpnProvider)) as [r Hr].
  { unfold validateBeforeVerbosity.
    repeat match goal with
    | H : loadString _ _ = Some _ |- _ => rewrite H; clear H
    end.
    rewrite Hm. simpl. unfold andThen.
    repeat match goal with
    | |- is_Some (Some _) => eexists; reflexivity
    | |- is_Some (if ?b then _ else _) => destruct b; simpl
    | |- is_Some (match ?x with _ => _ end) => destruct x; simpl
    | |- is_Some (mbind _ (if ?b then _ else _)) => destruct b; simpl
    end. }
  unfold validate. rewrite Hr. simpl. destruct r; simpl; [eexists; reflexivity |].
  rewrite Hv. simpl. settle.
Qed.

(** [toLinesNode] dereferences no nil pointer on such settings either. *)
Lemma toLinesNode_readable (ObfuscatePassword ObfuscateData : string -> string)
    (o : OpenVPN) (h : heap) :
  readable h o -> is_Some (toLinesNode ObfuscatePassword ObfuscateData o h).
Proof.
  intros (Hs & [mssFix Hm] & [verbosity Hv]). unfold stringPointers in Hs.
  unroll_Forall Hs.
  repeat match goal with
  | H : is_Some (loadString _ _) |- _ => destruct H as [? H]
  end.
  unfold toLinesNode.
  repeat match goal with
  | H : loadString _ _ = Some _ |- _ => rewrite H; clear H
  end.
  rewrite Hm, Hv. simpl.
  match goal with
  | |- context [negb (bool_decide (?ek = ""))] =>
      lazymatch goal with
      | |- is_Some (mbind _ (if negb (bool_decide (ek = "")) then _ else _)) =>
          destruct (bool_decide (ek = "")); simpl
      end
  end; eexists; reflexivity.
Qed.

(** X17. Right after [setDefaults], [validate] returns: it runs into no nil
    pointer, whatever was set before, for any provider. *)
Theorem validate_after_setDefaults (X : Externals)
    (DefaultPointer : ptr -> val -> heap -> ptr * heap)
    (DefaultString : string -> string -> string)
    (o : OpenVPN) (h : heap) (vpnProvider : string) (o1 : OpenVPN) (h1 : heap) :
  DefaultPointerContract DefaultPointer ->
  wellTyped h o ->
  setDefaults X DefaultPointer DefaultString o h vpnProvider = (o1, h1) ->
  forall provider, is_Some (validate X o1 h1 provider).
Proof.
  intros Hok Ht E provider. apply validate_readable.
  exact (setDefaults_readable X DefaultPointer DefaultString o h vpnProvider o1 h1 Hok Ht E).
Qed.

(** X18. Right after [setDefaults], [toLinesNode] returns a node: it runs into
    no nil pointer. *)
Theorem toLinesNode_after_setDefaults (X : Externals)
    (DefaultPointer : ptr -> val -> heap -> ptr * heap)
    (DefaultString : string -> string -> string)
    (ObfuscatePassword ObfuscateData : string -> string)
    (o : OpenVPN) (h : heap) (vpnProvider : string) (o1 : OpenVPN) (h1 : heap) :
  DefaultPointerContract DefaultPointer ->
  wellTyped h o ->
  setDefaults X DefaultPointer DefaultString o h vpnProvider = (o1, h1) ->
  is_Some (toLinesNode ObfuscatePassword ObfuscateData o1 h1).
Proof.
  intros Hok Ht E. apply toLinesNode_readable.
  exact (setDefaults_readable X DefaultPointer DefaultString o h vpnProvider o1 h1 Hok Ht E).
Qed.

Lemma samples_partial_wellTyped : wellTyped samples.heap0 samples.partial.
Proof.
  split; [|split]; [|intros N; contradiction ..].
  unfold stringPointers.
  repeat (constructor; [intros N; try contradiction; eexists; vm_compute; reflexivity |]).
  constructor.
Qed.

Lemma validate_after_setDefaults_witness :
  let r := setDefaults samples.externals reference.DefaultPointer reference.DefaultString
             samples.partial samples.heap0 "mullvad" in
  is_Some (validate samples.externals r.1 r.2 "mullvad").
Proof.
  intros r.
  apply (validate_after_setDefaults samples.externals
           reference.DefaultPointer reference.DefaultString
           samples.partial samples.heap0 "mullvad" r.1 r.2
           defaults_facts.reference_DefaultPointer_ok samples_partial_wellTyped).
  apply surjective_pairing.
Defined.

Lemma toLinesNode_after_setDefaults_witness :
  let r := setDefaults samples.externals reference.DefaultPointer reference.DefaultString
             samples.partial samples.heap0 "mullvad" in
  is_Some (toLinesNode (fun _ => "[set]") (fun _ => "[set]") r.1 r.2).
Proof.
  intros r.
  apply (toLinesNode_after_setDefaults samples.externals
           reference.DefaultPointer reference.DefaultString
           (fun _ => "[set]") (fun _ => "[set]")
           samples.partial samples.heap0 "mullvad" r.1 r.2
           defaults_facts.reference_DefaultPointer_ok samples_partial_wellTyped).
  apply surjective_pairing.
Defined.

End defaults_usable.

(** ** Further properties of copies *)

Module copy_extras.
Import errors mem settings settings_methods copy_facts.

(** A store to a cell the settings do not point to does not change what
    they read. *)
Lemma view_insert_other (h : heap) (o : OpenVPN) (l : loc) (w : val) :
  Some l ∉ cells o -> view (<[l := w]> h) o = view h o.
Proof.
  intros Hl. unfold view. f_equal; [f_equal |].
  - apply list_eq_Forall2, Forall2_fmap, Forall_Forall2_diag, Forall_forall.
    intros p Hp. destruct p as [m|]; [|reflexivity]. simpl.
    apply lookup_insert_ne. intros ->. apply Hl.
    unfold cells. apply elem_of_app. left. exact Hp.
  - apply list_eq_Forall2, Forall2_fmap, Forall_Forall2_diag, Forall_forall.
    intros s Hs. f_equal. unfold elems. destruct (array s) as [m|] eqn:Em; [|reflexivity].
    rewrite lookup_insert_ne; [reflexivity |]. intros ->. apply Hl.
    unfold cells. apply elem_of_app. right. rewrite <- Em.
    apply list_elem_of_fmap_2. exact Hs.
Qed.

Lemma inBounds_allocated (h : heap) (s : slice) :
  inBounds h s -> allocated h (array s).
Proof.
  unfold inBounds, allocated. destruct (array s); [|auto].
  intros (xs & Hxs & _). eexists. exact Hxs.
Qed.

Lemma wellFormed_cells (h : heap) (o : OpenVPN) :
  wellFormed h o -> Forall (allocated h) (cells o).
Proof.
  intros [Hp Hs]. unfold cells. apply Forall_app. split; [exact Hp |].
  apply Forall_fmap. eapply Forall_impl; [exact Hs |].
  intros s. apply inBounds_allocated.
Qed.

(** The cells made so far stay distinct when a new one is added. *)
Lemma cells_extend (hi hi' : heap) (acc : list ptr) (p' : ptr) :
  Forall (allocated hi) acc /\ NoDup (omap id acc) ->
  hi ⊆ hi' -> freshIn hi p' -> allocated hi' p' ->
  Forall (allocated hi') (acc ++ [p']) /\ NoDup (omap id (acc ++ [p'])).
Proof.
  intros [Ha Hn] Hsub Hf Hp. split.
  - apply Forall_app. split; [|constructor; [exact Hp | constructor]].
    eapply Forall_impl; [exact Ha |]. intros p Hal.
    destruct p as [l|]; [|exact I]. destruct Hal as [v Hv].
    exists v. exact (lookup_weaken _ _ _ _ Hv Hsub).
  - rewrite omap_app. destruct p' as [l'|]; simpl; [|rewrite app_nil_r; exact Hn].
    apply NoDup_app. split; [exact Hn |]. split; [|apply NoDup_singleton].
    intros l Hl Hl'. apply list_elem_of_singleton in Hl'. subst l.
    apply list_elem_of_omap in Hl as (p & Hp' & Hid). simpl in Hid. subst p.
    rewrite Forall_forall in Ha. destruct (Ha _ Hp') as [v Hv].
    simpl in Hf. congruence.
Qed.

Section Steps.
Variable CopyPointer : ptr -> heap -> ptr * heap.
Variable CopySlice : slice -> heap -> slice * heap.
Hypothesis CopyPointer_ok : CopyPointerContract CopyPointer.
Hypothesis CopySlice_ok : CopySliceContract CopySlice.

Lemma CopyPointer_new (h hi : heap) (p : ptr) :
  h ⊆ hi -> allocated h p ->
  exists p' hi',
    CopyPointer p hi = (p', hi') /\ hi ⊆ hi' /\ freshIn hi p' /\ allocated hi' p'.
Proof.
  intros Hsub Ha. destruct CopyPointer_ok as [Hnil Hcopy].
  destruct p as [l|].
  - destruct Ha as [v Hv].
    destruct (Hcopy hi l v (lookup_weaken _ _ _ _ Hv Hsub)) as (l' & Hl' & E).
    exists (Some l'), (<[l' := v]> hi). split; [exact E |].
    split; [apply insert_subseteq; exact Hl' |].
    split; [exact Hl' |]. exists v. apply lookup_insert_eq.
  - exists None, hi. split; [apply Hnil |]. split; [reflexivity |].
    split; exact I.
Qed.

Lemma CopySlice_new (h hi : heap) (s : slice) :
  h ⊆ hi -> inBounds h s ->
  exists s' hi',
    CopySlice s hi = (s', hi') /\ hi ⊆ hi' /\ freshIn hi (array s') /\
    inBounds hi' s'.
Proof.
  intros Hsub Hb. destruct CopySlice_ok as [Hnil Hcopy].
  destruct (array s) as [l|] eqn:El.
  - pose proof (inBounds_weaken h hi s Hb Hsub) as Hbi.
    destruct (Hcopy hi s) as (l' & Hl' & E); [rewrite El; discriminate | exact Hbi |].
    exists (mkSlice (Some l') 0 (len s) (len s)), (<[l' := VArray (elems hi s)]> hi).
    split; [exact E |].
    split; [apply insert_subseteq; exact Hl' |].
    split; [exact Hl' |].
    unfold inBounds. simpl. exists (elems hi s). split; [apply lookup_insert_eq |].
    unfold inBounds in Hbi. rewrite El in Hbi. destruct Hbi as (xs & Hxs & Hlen).
    unfold elems. rewrite El, Hxs. rewrite length_take, length_drop. lia.
  - exists nilSlice, hi. split; [apply Hnil; exact El |].
    split; [reflexivity |]. split; exact I.
Qed.

End Steps.


(** Runs the next helper call of [E] and adds its cell to the ones of
    [Inv]. *)
Ltac new_step lem toAlloc h Hal E Inv :=
  lazymatch type of Hal with
  | _ _ ?p =>
      match type of E with
      | context [?f p ?hc] =>
          let Hsub := fresh "Hsub" in
          assert (h ⊆ hc) as Hsub by sub;
          let p' := fresh "p'" in
          let hn := fresh "hn" in
          let Ec := fresh "Ec" in
          let S := fresh "S" in
          let F := fresh "F" in
          let A := fresh "A" in
          destruct (lem h hc p Hsub Hal) as (p' & hn & Ec & S & F & A);
          rewrite Ec in E; clear Ec Hsub; cbv beta iota zeta in E;
          apply (fun I => cells_extend hc hn _ _ I S F (toAlloc _ _ A)) in Inv
      end
  end.

Section Copy.
Variable CopyPointer : ptr -> heap -> ptr * heap.
Variable CopySlice : slice -> heap -> slice * heap.
Hypothesis CopyPointer_ok : CopyPointerContract CopyPointer.
Hypothesis CopySlice_ok : CopySliceContract CopySlice.

(** The copy is well formed in the heap [copy] returns, and its cells
    are pairwise distinct. *)
Lemma copy_new_cells (o : OpenVPN) (h : heap) (c : OpenVPN) (h' : heap) :
  wellFormed h o ->
  copy CopyPointer CopySlice o h = (c, h') ->
  wellFormed h' c /\ NoDup (omap id (cells c)).
Proof.
  intros [Hp Hs] E. unfold copy in E.
  unfold pointerFields in Hp. unfold sliceFields in Hs.
  repeat match goal with
  | H : Forall _ (_ :: _) |- _ =>
      let Hx := fresh "Hx" in apply Forall_cons in H as [Hx H]
  end.
  clear Hp Hs.
  assert (Forall (allocated h) [] /\ NoDup (omap id (@nil ptr))) as Inv.
  { split; constructor. }
  pose (stepP := CopyPointer_new CopyPointer CopyPointer_ok).
  pose (stepS := CopySlice_new CopySlice CopySlice_ok).
  pose (ptrAlloc := fun (hh : heap) (p : ptr) (A : allocated hh p) => A).
  repeat match goal with
  | Hal : allocated h _ |- _ => new_step stepP ptrAlloc h Hal E Inv; clear Hal
  | Hal : inBounds h _ |- _ => new_step stepS inBounds_allocated h Hal E Inv; clear Hal
  end.
  simpl app in Inv. destruct Inv as [Hal Hnd].
  match type of E with
  | (_, ?hfin) = _ =>
      repeat match goal with
      | B : inBounds ?hk _ |- _ =>
          lazymatch hk with
          | hfin => fail
          | _ => apply (fun b => inBounds_weaken hk hfin _ b ltac:(sub)) in B
          end
      end
  end.
  injection E as <- <-.
  split; [split |].
  - unfold pointerFields. simpl.
    repeat match goal with
    | H : Forall _ (_ :: _) |- _ =>
        let Hx := fresh "Hx" in apply Forall_cons in H as [Hx H]
    end.
    repeat (constructor; [assumption |]). constructor.
  - unfold sliceFields. simpl. repeat (constructor; [assumption |]). constructor.
  - match type of Hnd with
    | NoDup (omap id ?acc) =>
        match goal with
        | |- NoDup (omap id (cells ?c)) => assert (acc ≡ₚ cells c) as Hperm
        end
    end.
    { unfold cells, pointerFields, sliceFields. simpl.
      do 3 apply perm_skip.
      apply (@Permutation_middle _ [_; _; _; _; _; _; _; _] [_] _). }
    rewrite <- Hperm. exact Hnd.
Qed.

(** X19. The copy is well formed in the new heap and no two of its pointers or
    slices share a cell, even where fields of the original did. *)
Theorem copy_cells_distinct (o : OpenVPN) (h : heap) (c : OpenVPN) (h' : heap) :
  wellFormed h o ->
  copy CopyPointer CopySlice o h = (c, h') ->
  wellFormed h' c /\ NoDup (omap id (cells c)).
Proof.
  intros Hwf E. destruct (copy_new_cells o h c h' Hwf E) as [Hwf' Hnd].
  split; [exact Hwf' | exact Hnd].
Qed.

(** X20. Storing any value in any cell of the original, after the copy was
    made, leaves every field of the copy as it was. *)
Theorem copy_unaffected_by_original (o : OpenVPN) (h : heap)
    (c : OpenVPN) (h' : heap) :
  wellFormed h o ->
  copy CopyPointer CopySlice o h = (c, h') ->
  forall l w, Some l ∈ cells o -> view (<[l := w]> h') c = view h' c.
Proof.
  intros Hwf E l w Hl.
  destruct (copy_spec CopyPointer CopySlice CopyPointer_ok CopySlice_ok o h c h' Hwf E)
    as (_ & _ & Hfresh).
  apply view_insert_other. intros Hc.
  pose proof (wellFormed_cells h o Hwf) as Ha.
  rewrite Forall_forall in Ha, Hfresh.
  destruct (Ha _ Hl) as [v Hv]. specialize (Hfresh _ Hc). simpl in Hfresh. congruence.
Qed.

(** X21. A copy can be copied again: the copy of the copy reads field by
    field as the original. *)
Theorem copy_of_copy (o : OpenVPN) (h : heap) (c : OpenVPN) (h' : heap)
    (c2 : OpenVPN) (h2 : heap) :
  wellFormed h o ->
  copy CopyPointer CopySlice o h = (c, h') ->
  copy CopyPointer CopySlice c h' = (c2, h2) ->
  view h2 c2 = view h o /\ wellFormed h2 c2.
Proof.
  intros Hwf E E2.
  destruct (copy_spec CopyPointer CopySlice CopyPointer_ok CopySlice_ok o h c h' Hwf E)
    as (_ & Hv & _).
  destruct (copy_new_cells o h c h' Hwf E) as [Hwf' _].
  destruct (copy_spec CopyPointer CopySlice CopyPointer_ok CopySlice_ok c h' c2 h2 Hwf' E2)
    as (_ & Hv2 & _).
  destruct (copy_new_cells c h' c2 h2 Hwf' E2) as [Hwf2 _].
  split; [rewrite Hv2; exact Hv | exact Hwf2].
Qed.

End Copy.

(** Settings whose user and password share a cell. *)
Lemma samples_shared_wellFormed :
  wellFormed samples.heap0
    (withCredentials samples.openvpn (Some 1%positive) (Some 1%positive)).
Proof.
  split.
  - unfold pointerFields. repeat constructor; simpl; eexists; vm_compute; reflexivity.
  - unfold sliceFields. repeat constructor.
    exists ["aes-256-gcm"; "aes-128-gcm"; "aes-256-cbc"]%string.
    split; [vm_compute; reflexivity | simpl; lia].
Qed.

Lemma copy_cells_distinct_witness :
  let r := copy reference.CopyPointer reference.CopySlice
             (withCredentials samples.openvpn (Some 1%positive) (Some 1%positive))
             samples.heap0 in
  wellFormed r.2 r.1 /\ NoDup (omap id (cells r.1)).
Proof.
  intros r.
  apply (copy_cells_distinct reference.CopyPointer reference.CopySlice
           reference_CopyPointer_ok reference_CopySlice_ok
           (withCredentials samples.openvpn (Some 1%positive) (Some 1%positive))
           samples.heap0 r.1 r.2 samples_shared_wellFormed).
  apply surjective_pairing.
Defined.

Lemma copy_unaffected_by_original_witness :
  let r := copy reference.CopyPointer reference.CopySlice samples.openvpn samples.heap0 in
  view (<[1%positive := VString "bob"]> r.2) r.1 = view r.2 r.1.
Proof.
  intros r.
  apply (copy_unaffected_by_original reference.CopyPointer reference.CopySlice
           reference_CopyPointer_ok reference_CopySlice_ok
           samples.openvpn samples.heap0 r.1 r.2 samples_openvpn_wellFormed).
  - apply surjective_pairing.
  - unfold cells, pointerFields. simpl. apply list_elem_of_here.
Defined.

Lemma copy_of_copy_witness :
  let r := copy reference.CopyPointer reference.CopySlice samples.openvpn samples.heap0 in
  let r2 := copy reference.CopyPointer reference.CopySlice r.1 r.2 in
  view r2.2 r2.1 = view samples.heap0 samples.openvpn /\ wellFormed r2.2 r2.1.
Proof.
  intros r r2.
  apply (copy_of_copy reference.CopyPointer reference.CopySlice
           reference_CopyPointer_ok reference_CopySlice_ok
           samples.openvpn samples.heap0 r.1 r.2 r2.1 r2.2 samples_openvpn_wellFormed);
    apply surjective_pairing.
Defined.

End copy_extras.

(** ** Merging and overriding settings *)

Module merging_facts.
Import errors mem settings settings_methods copy_facts.

(** A call of a helper on two pointers or two slices whose heap only
    grows. *)
Lemma grows_step {A : Type} (f : A -> A -> heap -> A * heap) (a b : A) (hc : heap) :
  (forall a b h, h ⊆ (f a b h).2) ->
  exists r hn, f a b hc = (r, hn) /\ hc ⊆ hn.
Proof.
  intros Hg. exists (f a b hc).1, (f a b hc).2.
  split; [apply surjective_pairing | apply Hg].
Qed.

Lemma merge_pointer_step (f : ptr -> ptr -> heap -> ptr * heap)
    (existing other : ptr) (hc : heap) :
  MergeWithPointerKeeps f ->
  exists r hn, f existing other hc = (r, hn) /\ hc ⊆ hn /\
               (existing <> None -> r = existing).
Proof.
  intros [Hk Hg]. destruct (grows_step f existing other hc Hg) as (r & hn & E & S).
  exists r, hn. split; [exact E |]. split; [exact S |].
  intros Hne. destruct existing as [l|]; [|contradiction].
  rewrite Hk in E. injection E as <- _. reflexivity.
Qed.

Lemma override_pointer_step (f : ptr -> ptr -> heap -> ptr * heap)
    (existing other : ptr) (hc : heap) :
  OverrideWithPointerKeeps f ->
  exists r hn, f existing other hc = (r, hn) /\ hc ⊆ hn /\
               (other = None -> r = existing).
Proof.
  intros [Hk Hg]. destruct (grows_step f existing other hc Hg) as (r & hn & E & S).
  exists r, hn. split; [exact E |]. split; [exact S |].
  intros ->. rewrite Hk in E. injection E as <- _. reflexivity.
Qed.

Ltac run_helpers E stepP stepS :=
  repeat match type of E with
  | context [?f ?a ?b ?hc] =>
      let r := fresh "r" in
      let hn := fresh "hn" in
      let Ec := fresh "Ec" in
      let S := fresh "S" in
      first
        [ let K := fresh "K" in
          destruct (stepP a b hc) as (r & hn & Ec & S & K)
        | destruct (stepS a b hc) as (r & hn & Ec & S) ];
      rewrite Ec in E; clear Ec; cbv beta iota zeta in E
  end.

Section Merging.
Variable MergeWithString : string -> string -> string.
Variable MergeWithPointer : ptr -> ptr -> heap -> ptr * heap.
Variable MergeSlices : slice -> slice -> heap -> slice * heap.
Variable OverrideWithString : string -> string -> string.
Variable OverrideWithPointer : ptr -> ptr -> heap -> ptr * heap.
Variable OverrideWithSlice : slice -> slice -> heap -> slice * heap.

(** X22. For helpers that keep a value that is set, [mergeWith] keeps every
    string and every pointer that is set in the receiver: the same
    string, the same pointer to the same value. *)
Theorem mergeWith_keeps_set (o other : OpenVPN) (h : heap) (o1 : OpenVPN) (h1 : heap) :
  MergeWithStringKeeps MergeWithString ->
  MergeWithPointerKeeps MergeWithPointer ->
  SliceHelperGrows MergeSlices ->
  Forall (allocated h) (pointerFields o) ->
  mergeWith MergeWithString MergeWithPointer MergeSlices o other h = (o1, h1) ->
  Forall2 (fun q q1 => q <> None -> q1 = q /\ load h1 q1 = load h q)
          (pointerFields o) (pointerFields o1) /\
  Forall2 (fun s s1 => s <> "" -> s1 = s)
          [Version o; Interface o; ProcessUser o]
          [Version o1; Interface o1; ProcessUser o1].
Proof.
  intros Hs Hp Hg Ha E. unfold mergeWith in E.
  pose (stepP := fun a b hc => merge_pointer_step MergeWithPointer a b hc Hp).
  pose (stepS := fun a b hc => grows_step MergeSlices a b hc Hg).
  run_helpers E stepP stepS.
  injection E as <- <-.
  unfold pointerFields in *.
  cbn [Version User Password ConfFile Ciphers Auth Cert Key EncryptedKey
       KeyPassphrase PIAEncPreset MSSFix Interface ProcessUser Verbosity Flags].
  repeat match goal with
  | H : Forall _ (_ :: _) |- _ =>
      let Hx := fresh "Hx" in apply Forall_cons in H as [Hx H]
  end.
  split.
  - repeat (constructor;
      [intros Hne;
       match goal with
       | K : ?q <> None -> ?r = ?q |- ?r = ?q /\ _ =>
           rewrite (K Hne); split; [reflexivity |];
           apply load_weaken; [assumption | sub]
       end |]).
    constructor.
  - repeat (constructor; [apply Hs |]). constructor.
Qed.

(** X23. For helpers that keep the existing value when the other one is not
    set, [overrideWith] keeps every string and every pointer of the
    receiver that the other settings leave unset; overriding with
    settings that set nothing changes none of them. *)
Theorem overrideWith_keeps_unset (o other : OpenVPN) (h : heap)
    (o1 : OpenVPN) (h1 : heap) :
  OverrideWithStringKeeps OverrideWithString ->
  OverrideWithPointerKeeps OverrideWithPointer ->
  SliceHelperGrows OverrideWithSlice ->
  Forall (allocated h) (pointerFields o) ->
  overrideWith OverrideWithString OverrideWithPointer OverrideWithSlice o other h =
    (o1, h1) ->
  Forall3 (fun q q' q1 => q' = None -> q1 = q /\ load h1 q1 = load h q)
          (pointerFields o) (pointerFields other) (pointerFields o1) /\
  Forall3 (fun s s' s1 => s' = "" -> s1 = s)
          [Version o; Interface o; ProcessUser o]
          [Version other; Interface other; ProcessUser other]
          [Version o1; Interface o1; ProcessUser o1].
Proof.
  intros Hs Hp Hg Ha E. unfold overrideWith in E.
  pose (stepP := fun a b hc => override_pointer_step OverrideWithPointer a b hc Hp).
  pose (stepS := fun a b hc => grows_step OverrideWithSlice a b hc Hg).
  run_helpers E stepP stepS.
  injection E as <- <-.
  unfold pointerFields in *.
  cbn [Version User Password ConfFile Ciphers Auth Cert Key EncryptedKey
       KeyPassphrase PIAEncPreset MSSFix Interface ProcessUser Verbosity Flags].
  repeat match goal with
  | H : Forall _ (_ :: _) |- _ =>
      let Hx := fresh "Hx" in apply Forall_cons in H as [Hx H]
  end.
  split.
  - repeat (constructor;
      [intros Hnone;
       match goal with
       | K : ?q' = None -> ?r = ?q |- ?r = ?q /\ _ =>
           rewrite (K Hnone); split; [reflexivity |];
           apply load_weaken; [assumption | sub]
       end |]).
    constructor.
  - repeat (constructor; [intros ->; apply Hs |]). constructor.
Qed.

End Merging.

Lemma reference_CopyPointer_grows (p : ptr) (h : heap) :
  h ⊆ (reference.CopyPointer p h).2.
Proof.
  unfold reference.CopyPointer. destruct p as [l|]; [|reflexivity].
  destruct (h !! l); [|reflexivity]. simpl. apply insert_subseteq, new_fresh.
Qed.

Lemma merging_MergeWithPointer_ok : MergeWithPointerKeeps merging.MergeWithPointer.
Proof.
  split; [reflexivity |]. intros existing other h.
  unfold merging.MergeWithPointer. destruct existing; [reflexivity |].
  apply reference_CopyPointer_grows.
Qed.

Lemma merging_OverrideWithPointer_ok : OverrideWithPointerKeeps merging.OverrideWithPointer.
Proof.
  split; [reflexivity |]. intros existing other h.
  unfold merging.OverrideWithPointer. destruct other; [|reflexivity].
  apply reference_CopyPointer_grows.
Qed.

Lemma mergeWith_keeps_set_witness :
  let r := mergeWith merging.MergeWithString merging.MergeWithPointer merging.keepSlice
             samples.partial samples.openvpn samples.heap0 in
  Forall2 (fun q q1 => q <> None -> q1 = q /\ load r.2 q1 = load samples.heap0 q)
          (pointerFields samples.partial) (pointerFields r.1) /\
  Forall2 (fun s s1 => s <> "" -> s1 = s)
          [Version samples.partial; Interface samples.partial; ProcessUser samples.partial]
          [Version r.1; Interface r.1; ProcessUser r.1].
Proof.
  intros r.
  apply (mergeWith_keeps_set merging.MergeWithString merging.MergeWithPointer
           merging.keepSlice samples.partial samples.openvpn samples.heap0 r.1 r.2).
  - intros existing other Hne. unfold merging.MergeWithString.
    rewrite bool_decide_eq_false_2; [reflexivity | exact Hne].
  - exact merging_MergeWithPointer_ok.
  - intros a b h. reflexivity.
  - exact (proj1 defaults_facts.samples_partial_wellFormed).
  - apply surjective_pairing.
Defined.

Lemma overrideWith_keeps_unset_witness :
  let r := overrideWith merging.OverrideWithString merging.OverrideWithPointer
             merging.keepSlice samples.openvpn samples.partial samples.heap0 in
  Forall3 (fun q q' q1 => q' = None -> q1 = q /\ load r.2 q1 = load samples.heap0 q)
          (pointerFields samples.openvpn) (pointerFields samples.partial)
          (pointerFields r.1) /\
  Forall3 (fun s s' s1 => s' = "" -> s1 = s)
          [Version samples.openvpn; Interface samples.openvpn; ProcessUser samples.openvpn]
          [Version samples.partial; Interface samples.partial; ProcessUser samples.partial]
          [Version r.1; Interface r.1; ProcessUser r.1].
Proof.
  intros r.
  apply (overrideWith_keeps_unset merging.OverrideWithString merging.OverrideWithPointer
           merging.keepSlice samples.openvpn samples.partial samples.heap0 r.1 r.2).
  - intros existing. reflexivity.
  - exact merging_OverrideWithPointer_ok.
  - intros a b h. reflexivity.
  - exact (proj1 samples_openvpn_wellFormed).
  - apply surjective_pairing.
Defined.

End merging_facts.

(** ** The resolver and the excluded addresses, by the form of the address *)

Module form_extras.
Import errors netip ranges routing family_facts resolver_facts resolver_results.
Import excluded_facts.

(** An entry is passed over when [ipMatchesFamily] rejects it. *)
Lemma entryMatches_false_iff (F4 F6 : Z) (conv : net.IP -> Addr)
    (family : Z) (x : net.Addr) :
  entryMatches F4 F6 conv family x = false <->
  forall m, entryIP conv x = Some m ->
    ~ ((family = F6 /\ Is6 m = true) \/
       (family = F4 /\ (Is4 m = true \/ Is4In6 m = true))).
Proof.
  unfold entryMatches. destruct (entryIP conv x) as [m|].
  - rewrite <- not_true_iff_false, ipMatchesFamily_iff. split.
    + intros N m' [= <-]. exact N.
    + intros N. exact (N m eq_refl).
  - split; [intros _ m' E; discriminate E | reflexivity].
Qed.

(** X24. On an interface that exists and whose addresses were listed,
    [assignedIP] succeeds exactly with the first entry, in enumeration
    order, that carries an address of the accepted form, returned through
    [Unmap]: for family V6 every address in 16-byte form, the
    V4-mapped-V6 ones included, for family V4 an address in 4-byte or in
    V4-mapped-V6 form.  It fails with the error wrapping
    [errInterfaceIPNotFound] exactly when no entry carries such an
    address. *)
Theorem assignedIP_first_accepted (F4 F6 : Z) (conv : net.IP -> Addr)
    (host : net.Host) (name : string) (family : Z)
    (iface : net.Interface) (addresses : list net.Addr) :
  net.InterfaceByName host name = net.Ok iface ->
  net.Addrs iface = net.Ok addresses ->
  (forall r,
     assignedIP F4 F6 conv host name family = (r, None) <->
     exists pre a post m,
       addresses = pre ++ a :: post /\
       Forall (fun x => forall m', entryIP conv x = Some m' ->
                 ~ ((family = F6 /\ Is6 m' = true) \/
                    (family = F4 /\ (Is4 m' = true \/ Is4In6 m' = true)))) pre /\
       entryIP conv a = Some m /\
       ((family = F6 /\ Is6 m = true) \/
        (family = F4 /\ (Is4 m = true \/ Is4In6 m = true))) /\
       r = Unmap m) /\
  ((exists ip, assignedIP F4 F6 conv host name family =
                 (ip, Some (NoMatchingAddress name (length addresses)))) <->
   Forall (fun x => forall m', entryIP conv x = Some m' ->
             ~ ((family = F6 /\ Is6 m' = true) \/
                (family = F4 /\ (Is4 m' = true \/ Is4In6 m' = true)))) addresses).
Proof.
  intros Hi Ha.
  destruct (assignedIP_first_matching F4 F6 conv host name family iface addresses Hi Ha)
    as (Hok & Hno & _).
  split.
  - intros r. rewrite (Hok r). split.
    + intros (pre & a & post & m & -> & Hpre & Hm & Hf & -> & _).
      exists pre, a, post, m. repeat split; auto.
      * eapply Forall_impl; [exact Hpre |]. intros x. apply entryMatches_false_iff.
      * apply ipMatchesFamily_iff. exact Hf.
    + intros (pre & a & post & m & -> & Hpre & Hm & Hf & ->).
      exists pre, a, post, m. repeat split; auto.
      * eapply Forall_impl; [exact Hpre |]. intros x. apply entryMatches_false_iff.
      * apply ipMatchesFamily_iff. exact Hf.
      * apply Unmap_id.
  - rewrite Hno. split; intros H; (eapply Forall_impl; [exact H |]);
      intros x; apply entryMatches_false_iff.
Qed.

(** On tun0, which lists a socket, fe80::1 and the tunnel address in
    16-byte form, in this order. *)
Lemma assignedIP_first_accepted_witness :
  (forall r,
     assignedIP samples.FAMILY_V4 samples.FAMILY_V6 samples.conv samples.host
       "tun0" samples.FAMILY_V4 = (r, None) <->
     exists pre a post m,
       samples.tun0Addrs = pre ++ a :: post /\
       Forall (fun x => forall m', entryIP samples.conv x = Some m' ->
                 ~ ((samples.FAMILY_V4 = samples.FAMILY_V6 /\ Is6 m' = true) \/
                    (samples.FAMILY_V4 = samples.FAMILY_V4 /\
                     (Is4 m' = true \/ Is4In6 m' = true)))) pre /\
       entryIP samples.conv a = Some m /\
       ((samples.FAMILY_V4 = samples.FAMILY_V6 /\ Is6 m = true) \/
        (samples.FAMILY_V4 = samples.FAMILY_V4 /\ (Is4 m = true \/ Is4In6 m = true))) /\
       r = Unmap m) /\
  ((exists ip, assignedIP samples.FAMILY_V4 samples.FAMILY_V6 samples.conv samples.host
                 "tun0" samples.FAMILY_V4 =
                 (ip, Some (NoMatchingAddress "tun0" (length samples.tun0Addrs)))) <->
   Forall (fun x => forall m', entryIP samples.conv x = Some m' ->
             ~ ((samples.FAMILY_V4 = samples.FAMILY_V6 /\ Is6 m' = true) \/
                (samples.FAMILY_V4 = samples.FAMILY_V4 /\
                 (Is4 m' = true \/ Is4In6 m' = true)))) samples.tun0Addrs).
Proof.
  exact (assignedIP_first_accepted samples.FAMILY_V4 samples.FAMILY_V6 samples.conv
           samples.host "tun0" samples.FAMILY_V4 samples.tun0 samples.tun0Addrs
           eq_refl eq_refl).
Defined.

(** X25. What [IPIsPrivate] answers, by the form of the address: it
    answers true exactly on the addresses that are not in V4-mapped-V6
    form and are private-use (RFC 1918, RFC 4193), loopback, link-local
    unicast or link-local multicast; on an address in V4-mapped-V6 form
    it answers false, whatever V4 address it encodes. *)
Theorem IPIsPrivate_by_form (ip : Addr) :
  valid ip ->
  (IPIsPrivate ip = true <-> Is4In6 ip = false /\ Excluded ip) /\
  (Is4In6 ip = true -> IPIsPrivate ip = false).
Proof.
  intros H. split; [|apply IPIsPrivate_mapped].
  destruct (Is4In6 ip) eqn:E.
  - rewrite (IPIsPrivate_mapped ip E).
    split; [intros X; discriminate X | intros [X _]; discriminate X].
  - rewrite (IPIsPrivate_own_form ip H E). tauto.
Qed.

(** 172.20.1.9 is private-use and in 4-byte form. *)
Lemma IPIsPrivate_by_form_witness :
  (IPIsPrivate (AddrFrom4 172 20 1 9) = true <->
   Is4In6 (AddrFrom4 172 20 1 9) = false /\ Excluded (AddrFrom4 172 20 1 9)) /\
  (Is4In6 (AddrFrom4 172 20 1 9) = true -> IPIsPrivate (AddrFrom4 172 20 1 9) = false).
Proof.
  apply (IPIsPrivate_by_form (AddrFrom4 172 20 1 9)).
  unfold valid. simpl. repeat split; try reflexivity; discriminate.
Defined.

End form_extras.
